(** * Device metrics of the VR head-mounted display (libs/vr/libeds)

    A shallow embedding of [device_metrics.cpp]: the property readers
    ([StringToFloat], [SplitString], the two [GetProperty] overloads), the
    derived getters and the three metrics factories, followed by the
    theorems that settle what the specification says about them.

    Numbers are IEEE-754 values: C [float] is binary32 and C [double] is
    binary64, both carried by the Standard Library's [spec_float] with the
    operations of [SpecFloat] at the corresponding precision. *)

From Stdlib Require Import ZArith String Ascii List Bool Lia QArith.
From Stdlib Require Import Floats.SpecFloat.
From stdpp Require Import base option list gmap strings.

Local Open Scope string_scope.
Local Open Scope list_scope.

(* ===================================================================== *)
(** ** IEEE-754 layer *)
(* ===================================================================== *)

Module IEEE.

(** C [float]: 24 bits of precision, infinities at exponent 128. *)
Definition prec32 : Z := 24.
Definition emax32 : Z := 128.
(** C [double]: 53 bits of precision, infinities at exponent 1024. *)
Definition prec64 : Z := 53.
Definition emax64 : Z := 1024.

(** The value [(-1)^s * m * 10^e] rounded to nearest, ties to even, in
    the format [(prec, emax)].  This is how a decimal literal of the
    source and the decimal text given to [strtof] become a number. *)
Definition round_decimal (prec emax : Z) (s : bool) (m : Z) (e : Z)
  : spec_float :=
  match m with
  | Z0 => S754_zero s
  | Zpos p =>
      match e with
      | Zneg k =>
          let '(q, e', l) :=
            SFdiv_core_binary prec emax (Zpos p) 0 (Z.pow 10 (Zpos k)) 0 in
          binary_round_aux prec emax s q e' l
      | _ => binary_round prec emax s (Z.to_pos (Zpos p * Z.pow 10 e)) 0
      end
  | Zneg _ => S754_nan
  end.

(** The value [(-1)^s * m * 2^e] rounded to the format. *)
Definition round_binary (prec emax : Z) (s : bool) (m : Z) (e : Z)
  : spec_float :=
  match m with
  | Z0 => S754_zero s
  | Zpos p => binary_round prec emax s p e
  | Zneg _ => S754_nan
  end.

(** A conversion between formats rounds the exact value to the target. *)
Definition convert (prec emax : Z) (x : spec_float) : spec_float :=
  match x with
  | S754_finite s m e => binary_round prec emax s m e
  | _ => x
  end.

(** The exact rational value of a finite number (0 for the others). *)
Definition to_Q (x : spec_float) : Q :=
  match x with
  | S754_finite s m e =>
      let v := (inject_Z (Zpos m) * Qpower 2 e)%Q in
      if s then Qopp v else v
  | _ => 0%Q
  end.

Definition is_finite (x : spec_float) : bool :=
  match x with
  | S754_finite _ _ _ | S754_zero _ => true
  | _ => false
  end.

End IEEE.

(** C [float] and its arithmetic. *)
Definition float : Type := spec_float.
(** C [double]. *)
Definition double : Type := spec_float.

Definition fsub : float -> float -> float := SFsub IEEE.prec32 IEEE.emax32.
Definition fdiv : float -> float -> float := SFdiv IEEE.prec32 IEEE.emax32.
Definition dmul : double -> double -> double := SFmul IEEE.prec64 IEEE.emax64.
Definition ddiv : double -> double -> double := SFdiv IEEE.prec64 IEEE.emax64.

(** Implicit promotion [float -> double] (exact) and the narrowing
    conversion on assignment [double -> float] (rounding). *)
Definition float_to_double : float -> double :=
  IEEE.convert IEEE.prec64 IEEE.emax64.
Definition double_to_float : double -> float :=
  IEEE.convert IEEE.prec32 IEEE.emax32.

(** [static_cast<float>(i)] for an [int] [i]. *)
Definition int_to_float (i : Z) : float :=
  binary_normalize IEEE.prec32 IEEE.emax32 i 0 false.

(** A literal [m e] with suffix [f], and one without (a [double]). *)
Definition flit (m e : Z) : float :=
  IEEE.round_decimal IEEE.prec32 IEEE.emax32 (m <? 0)%Z (Z.abs m) e.
Definition dlit (m e : Z) : double :=
  IEEE.round_decimal IEEE.prec64 IEEE.emax64 (m <? 0)%Z (Z.abs m) e.

(** [M_PI] of <math.h>: the [double] nearest to pi. *)
Definition M_PI : double := dlit 314159265358979323846 (-20).

(* ===================================================================== *)
(** ** The C library's [strtof] *)
(* ===================================================================== *)

(** [std::strtof] belongs to the C library, not to this translation unit.
    It is modelled after ISO C 7.22.1.3: optional white space, an optional
    sign, then the longest prefix that is a decimal floating constant, a
    hexadecimal floating constant, [INF]/[INFINITY] or [NAN]/[NAN(...)]
    (letters in either case).  The result is the value rounded to [float]
    and the offset of [endptr] from [str]; offset 0 means that no
    conversion was performed ([endptr == str]). *)
Module Strtof.

Local Open Scope nat_scope.

Definition code (c : ascii) : nat := nat_of_ascii c.

Definition isspace (c : ascii) : bool :=
  (code c =? 32) || ((9 <=? code c) && (code c <=? 13)).

Definition digit_val (c : ascii) : option Z :=
  if (48 <=? code c) && (code c <=? 57)
  then Some (Z.of_nat (code c - 48)) else None.

Definition xdigit_val (c : ascii) : option Z :=
  if (48 <=? code c) && (code c <=? 57) then Some (Z.of_nat (code c - 48))
  else if (97 <=? code c) && (code c <=? 102)
       then Some (Z.of_nat (code c - 87))
  else if (65 <=? code c) && (code c <=? 70)
       then Some (Z.of_nat (code c - 55))
  else None.

Definition tolower (c : ascii) : ascii :=
  if (65 <=? code c) && (code c <=? 90)
  then ascii_of_nat (code c + 32) else c.

(** Letters, digits and underscore: the characters of an n-char-sequence. *)
Definition isnchar (c : ascii) : bool :=
  let k := code (tolower c) in
  ((97 <=? k) && (k <=? 122)) || ((48 <=? k) && (k <=? 57)) || (k =? 95).

Fixpoint skip_space (s : string) : nat * string :=
  match s with
  | String c r =>
      if isspace c then let '(n, r') := skip_space r in (S n, r')
      else (0, s)
  | EmptyString => (0, s)
  end.

(** An optional sign: is it negative, how many characters, the rest. *)
Definition opt_sign (s : string) : bool * nat * string :=
  match s with
  | String c r =>
      if Ascii.eqb c "-" then (true, 1, r)
      else if Ascii.eqb c "+" then (false, 1, r)
      else (false, 0, s)
  | EmptyString => (false, 0, s)
  end.

(** The longest run of digits of the base: the number read (continuing
    from [acc]), how many digits, the rest. *)
Fixpoint scan_digits (dv : ascii -> option Z) (base acc : Z) (s : string)
  : Z * nat * string :=
  match s with
  | String c r =>
      match dv c with
      | Some d =>
          let '(v, n, r') := scan_digits dv base (acc * base + d) r in
          (v, S n, r')
      | None => (acc, 0, s)
      end
  | EmptyString => (acc, 0, s)
  end.

(** A nonempty sequence of digits optionally containing a radix
    character: all digits as one integer, the number of digits after
    the point, the characters consumed, the rest. *)
Definition mantissa (dv : ascii -> option Z) (base : Z) (s : string)
  : option (Z * nat * nat * string) :=
  let '(vi, ni, r1) := scan_digits dv base 0 s in
  let no_point := if (ni =? 0) then None else Some (vi, 0, ni, r1) in
  match r1 with
  | String c r2 =>
      if Ascii.eqb c "." then
        let '(vf, nf, r3) := scan_digits dv base vi r2 in
        if (ni + nf =? 0) then None else Some (vf, nf, ni + 1 + nf, r3)
      else no_point
  | EmptyString => no_point
  end.

(** An optional exponent part introduced by [mark] (in either case); it
    is taken only when at least one digit follows the optional sign. *)
Definition exponent (mark : ascii) (s : string) : Z * nat :=
  match s with
  | String c r =>
      if Ascii.eqb (tolower c) mark then
        let '(neg, ns, r1) := opt_sign r in
        let '(v, n, _) := scan_digits digit_val 10 0 r1 in
        if (n =? 0) then (0%Z, 0)
        else ((if neg then Z.opp v else v), 1 + ns + n)
      else (0%Z, 0)
  | EmptyString => (0%Z, 0)
  end.

(** Does [s] start with [pat], letters compared in lower case? *)
Fixpoint prefix_ci (pat s : string) : option string :=
  match pat, s with
  | EmptyString, _ => Some s
  | String p pat', String c r =>
      if Ascii.eqb (tolower c) p then prefix_ci pat' r else None
  | String _ _, EmptyString => None
  end.

Fixpoint scan_nchars (s : string) : nat * string :=
  match s with
  | String c r =>
      if isnchar c then let '(n, r') := scan_nchars r in (S n, r')
      else (0, s)
  | EmptyString => (0, s)
  end.

Definition decimal (s : string) : option ((bool -> float) * nat) :=
  match mantissa digit_val 10 s with
  | Some (m, nf, n, r) =>
      let '(e, ne) := exponent "e" r in
      Some (fun sg =>
              IEEE.round_decimal IEEE.prec32 IEEE.emax32 sg m
                (e - Z.of_nat nf),
            n + ne)
  | None => None
  end.

Definition hexadecimal (s : string) : option ((bool -> float) * nat) :=
  match s with
  | String c (String x r) =>
      if Ascii.eqb c "0" && Ascii.eqb (tolower x) "x" then
        match mantissa xdigit_val 16 r with
        | Some (m, nf, n, r') =>
            let '(e, ne) := exponent "p" r' in
            Some (fun sg =>
                    IEEE.round_binary IEEE.prec32 IEEE.emax32 sg m
                      (e - 4 * Z.of_nat nf),
                  2 + n + ne)
        | None => None
        end
      else None
  | _ => None
  end.

Definition infinity (s : string) : option ((bool -> float) * nat) :=
  match prefix_ci "inf" s with
  | Some r =>
      match prefix_ci "inity" r with
      | Some _ => Some (S754_infinity, 8)
      | None => Some (S754_infinity, 3)
      end
  | None => None
  end.

Definition nan (s : string) : option ((bool -> float) * nat) :=
  match prefix_ci "nan" s with
  | Some r =>
      let plain := Some (fun _ : bool => S754_nan, 3) in
      match r with
      | String c r0 =>
          if Ascii.eqb c "(" then
            let '(n, r') := scan_nchars r0 in
            match r' with
            | String c' _ =>
                if Ascii.eqb c' ")"
                then Some (fun _ : bool => S754_nan, 3 + 1 + n + 1)
                else plain
            | EmptyString => plain
            end
          else plain
      | EmptyString => plain
      end
  | None => None
  end.

(** The subject sequence after white space and sign. *)
Definition subject (s : string) : option ((bool -> float) * nat) :=
  match hexadecimal s with
  | Some r => Some r
  | None =>
      match decimal s with
      | Some r => Some r
      | None =>
          match infinity s with
          | Some r => Some r
          | None => nan s
          end
      end
  end.

Definition strtof (str : string) : float * nat :=
  let '(nw, s1) := skip_space str in
  let '(neg, ns, s2) := opt_sign s1 in
  match subject s2 with
  | Some (mk, n) => (mk neg, nw + ns + n)
  | None => (S754_zero false, 0)
  end.

End Strtof.

(* ===================================================================== *)
(** ** The property store and the readers *)
(* ===================================================================== *)

Definition kRGBPolynomialOffset : string := "persist.dvr.rgb_poly_offset".
Definition kRPolynomial : string := "persist.dvr.r_poly".
Definition kGPolynomial : string := "persist.dvr.g_poly".
Definition kBPolynomial : string := "persist.dvr.b_poly".
Definition kLensDistance : string := "persist.dvr.lens_distance".
Definition kDisplayGap : string := "persist.dvr.display_gap".
Definition kVEyeToDisplay : string := "persist.dvr.v_eye_to_display".
Definition kFovIOBT : string := "persist.dvr.fov_iobt".
Definition kScreenSize : string := "persist.dvr.screen_size".

(** The system properties: a finite map from keys to texts.  The property
    service keeps C strings shorter than [PROPERTY_VALUE_MAX], so a value
    always fits the buffer the readers pass. *)
Abbreviation properties := (gmap string string).

(** [property_get(key, value, default_value)] of libcutils: the text of the
    property, or the default when the property is unset or empty. *)
Definition property_get (props : properties) (key default_value : string)
  : string :=
  match props !! key with
  | Some v => if String.eqb v EmptyString then default_value else v
  | None => default_value
  end.

(** [StringToFloat]: the value stored through [result] and the returned
    flag.  [endptr] is [str] plus the offset [strtof] reports, hence never
    null, and [str == endptr] exactly when the offset is 0. *)
Definition StringToFloat (str : string) : bool * float :=
  let '(result, endptr) := Strtof.strtof str in
  (negb ((endptr =? 0)%nat || false), result).

(** [std::getline(ss, sub_string, deliminator)] on the part of the stream
    not yet read: the characters up to the delimiter, which is extracted
    and dropped, or up to the end.  It fails, and the loop condition is
    false, exactly when no character at all could be extracted. *)
Fixpoint getline_chars (ss : string) (deliminator : ascii) : string * string :=
  match ss with
  | EmptyString => (EmptyString, EmptyString)
  | String c rest =>
      if Ascii.eqb c deliminator then (EmptyString, rest)
      else let '(sub_string, rest') := getline_chars rest deliminator in
           (String c sub_string, rest')
  end.

Definition getline (ss : string) (deliminator : ascii)
  : option (string * string) :=
  match ss with
  | EmptyString => None
  | _ => Some (getline_chars ss deliminator)
  end.

(** The [while] loop of [SplitString]; every iteration reads at least one
    character, so [S (length string_to_split)] iterations are never used
    up (see [SplitString_loop_fuel]). *)
Fixpoint SplitString_loop (fuel : nat) (ss : string) (deliminator : ascii)
  (result : list string) : list string :=
  match fuel with
  | O => result
  | S fuel' =>
      match getline ss deliminator with
      | Some (sub_string, ss') =>
          SplitString_loop fuel' ss' deliminator (result ++ [sub_string])
      | None => result
      end
  end.

Definition SplitString (string_to_split : string) (deliminator : ascii)
  : list string :=
  SplitString_loop (S (String.length string_to_split)) string_to_split
    deliminator [].

(** The [for] loop of the vector reader. *)
Definition parse_values (values : list string) : list float :=
  fold_left
    (fun results value =>
       match StringToFloat value with
       | (true, result) => results ++ [result]
       | (false, _) => results
       end)
    values [].

(** [GetProperty(name, default_values)], the vector overload. *)
Definition GetProperty_vector (props : properties) (name : string)
  (default_values : list float) : list float :=
  let prop := property_get props name EmptyString in
  let values := SplitString prop "," in
  let results := parse_values values in
  match results with
  | [] => default_values
  | _ => results
  end.

(** [GetProperty(name, default_value)], the scalar overload. *)
Definition GetProperty_float (props : properties) (name : string)
  (default_value : float) : float :=
  let prop := property_get props name EmptyString in
  match StringToFloat prop with
  | (true, result) => result
  | (false, _) => default_value
  end.

(* ===================================================================== *)
(** ** Derived getters *)
(* ===================================================================== *)

Definition GetInterLensDistance (props : properties) : float :=
  GetProperty_float props kLensDistance (flit 64 (-3)).

Definition GetDisplayGap (props : properties) : float :=
  GetProperty_float props kDisplayGap (flit 0 0).

Definition GetVEyeToDisplay (props : properties) : float :=
  GetProperty_float props kVEyeToDisplay (flit 35 (-3)).

Definition vec2 : Type := float * float.
Definition vec2i : Type := Z * Z.

(** [v[i]] on a [std::vector]: defined only inside the vector. *)
Definition at_index (v : list float) (i : nat) : option float := v !! i.

Definition default_size : list float := [flit 742177 (-7); flit 131943 (-6)].

Definition GetDisplaySize (props : properties) : option vec2 :=
  let sizes := GetProperty_vector props kScreenSize default_size in
  let sizes := if negb (length sizes =? 0)%nat then default_size else sizes in
  match at_index sizes 0, at_index sizes 1 with
  | Some x, Some y => Some (x, y)
  | _, _ => None
  end.

Definition default_fovs : list float :=
  [flit 437 (-1); flit 478 (-1); flit 542 (-1); flit 542 (-1)].

(** [value * M_PI / 180.0f]: [M_PI] is a [double], so both operations are
    done in [double] and the result is narrowed when it is stored. *)
Definition to_radians (value : float) : float :=
  double_to_float
    (ddiv (dmul (float_to_double value) M_PI) (float_to_double (flit 180 0))).

Definition GetMaxFOVs (props : properties) : list float :=
  let fovs := GetProperty_vector props kFovIOBT default_fovs in
  let fovs := if negb (length fovs =? 4)%nat then default_fovs else fovs in
  map to_radians fovs.

(* ===================================================================== *)
(** ** The metrics objects *)
(* ===================================================================== *)

(** Modelled from the spec: the classes of [head_mount_metrics.h],
    [display_metrics.h], [identity_distortion.h],
    [polynomial_radial_distortion.h] and [types.h] are declared outside
    this translation unit.  Each is the record of its constructor
    arguments, in the order in which the factories pass them. *)
Inductive VerticalAlignment := kBottom | kCenter | kTop.
Inductive EyeOrientation :=
  kCCW0Degrees | kCCW90Degrees | kCCW180Degrees | kCCW270Degrees.
Inductive DisplayOrientation := kPortrait | kLandscape.

Record FieldOfView := {
  fov_1 : float; fov_2 : float; fov_3 : float; fov_4 : float
}.

(** The implementations of [ColorChannelDistortion] the factories create. *)
Inductive ColorChannelDistortion :=
| PolynomialRadialDistortion (offset : float) (coefficients : list float)
| IdentityDistortion.

(** A [std::shared_ptr<ColorChannelDistortion>] is the address of the
    object it shares; the objects live in a heap. *)
Definition loc : Type := positive.
Abbreviation heap := (gmap loc ColorChannelDistortion).

Record HeadMountMetrics := {
  inter_lens_distance : float;
  eye_to_display_left : float;
  eye_to_display_right : float;
  vertical_alignment : VerticalAlignment;
  left_fov : FieldOfView;
  right_fov : FieldOfView;
  red_distortion : loc;
  green_distortion : loc;
  blue_distortion : loc;
  left_eye_orientation : EyeOrientation;
  right_eye_orientation : EyeOrientation;
  tray_to_lens_distance : float
}.

Record DisplayMetrics := {
  size_in_pixels : vec2i;
  meters_per_pixel : vec2;
  border_size : float;
  frame_duration : float;
  orientation : DisplayOrientation
}.

Definition kDefaultVerticalAlignment : VerticalAlignment := kCenter.
Definition kScreenBorderSize : float := flit 4 (-3).
Definition kScreenRefreshRate : float := flit 60 0.
Definition kDisplayOrientation : DisplayOrientation := kPortrait.

(** *** Computations that allocate and may index out of range *)

Definition M (A : Type) : Type := heap -> option (A * heap).

Definition ret {A} (a : A) : M A := fun h => Some (a, h).

Definition bind {A B} (m : M A) (k : A -> M B) : M B :=
  fun h => match m h with
           | Some (a, h') => k a h'
           | None => None
           end.

Notation "'do' x <- m ; k" := (bind m (fun x => k))
  (at level 10, x name, m at level 100, k at level 200).

(** Reading [v[i]]. *)
Definition index (v : list float) (i : nat) : M float :=
  fun h => match at_index v i with
           | Some x => Some (x, h)
           | None => None
           end.

(** [new T(...)] and [std::make_shared<T>()]: a fresh address. *)
Definition new (obj : ColorChannelDistortion) : M loc :=
  fun h => let l := fresh (dom h) in Some (l, <[l := obj]> h).

(* ===================================================================== *)
(** ** The factories *)
(* ===================================================================== *)

Definition default_r : list float :=
  [flit (-408519004) (-8); flit 3470282075 (-8); flit (-6737781249) (-8);
   flit 5697304235 (-8); flit (-2335768685) (-8); flit 47199597 (-7);
   flit 63198082 (-8)].
Definition default_g : list float :=
  [flit 443078318 (-8); flit 347806617 (-8); flit (-2058017398) (-8);
   flit 2085880414 (-8); flit (-84046504) (-7); flit 161284685 (-8);
   flit 8881761 (-7)].
Definition default_b : list float :=
  [flit 1204141265 (-8); flit (-2198112491) (-8); flit 1406758389 (-8);
   flit (-315245629) (-8); flit 36549102 (-8); flit 5252705 (-8);
   flit 99844279 (-8)].
Definition default_offsets : list float :=
  [flit 20971645238 (-11); flit 15189450000 (-11); flit 100096958278 (-11)].

(** The offsets after the arity check of [CreateHeadMountMetrics]. *)
Definition checked_offsets (props : properties) : list float :=
  let poly_offsets := GetProperty_vector props kRGBPolynomialOffset
                        default_offsets in
  if negb (length poly_offsets =? 3)%nat then default_offsets
  else poly_offsets.

Definition CreateHeadMountMetrics_fov (props : properties)
  (l_fov r_fov : FieldOfView) : M HeadMountMetrics :=
  let poly_offsets := checked_offsets props in
  let poly_r := GetProperty_vector props kRPolynomial default_r in
  let poly_g := GetProperty_vector props kGPolynomial default_g in
  let poly_b := GetProperty_vector props kBPolynomial default_b in
  do offset_r <- index poly_offsets 0;
  do distortion_r <- new (PolynomialRadialDistortion offset_r poly_r);
  do offset_g <- index poly_offsets 1;
  do distortion_g <- new (PolynomialRadialDistortion offset_g poly_g);
  do offset_b <- index poly_offsets 2;
  do distortion_b <- new (PolynomialRadialDistortion offset_b poly_b);
  ret {| inter_lens_distance := GetInterLensDistance props;
         eye_to_display_left := GetVEyeToDisplay props;
         eye_to_display_right := GetVEyeToDisplay props;
         vertical_alignment := kDefaultVerticalAlignment;
         left_fov := l_fov;
         right_fov := r_fov;
         red_distortion := distortion_r;
         green_distortion := distortion_g;
         blue_distortion := distortion_b;
         left_eye_orientation := kCCW0Degrees;
         right_eye_orientation := kCCW0Degrees;
         tray_to_lens_distance :=
           fdiv (fsub (GetInterLensDistance props) (GetDisplayGap props))
                (flit 2 0) |}.

(** The two eyes' fields of view from the result of [GetMaxFOVs]. *)
Definition eye_fovs (fovs : list float) : M (FieldOfView * FieldOfView) :=
  do f0 <- index fovs 0;
  do f1 <- index fovs 1;
  do f2 <- index fovs 2;
  do f3 <- index fovs 3;
  ret ({| fov_1 := f1; fov_2 := f0;
          fov_3 := f2; fov_4 := f3 |},
       {| fov_1 := f0; fov_2 := f1;
          fov_3 := f2; fov_4 := f3 |}).

Definition CreateHeadMountMetrics (props : properties) : M HeadMountMetrics :=
  let fovs := GetMaxFOVs props in
  do lr <- eye_fovs fovs;
  CreateHeadMountMetrics_fov props (fst lr) (snd lr).

Definition CreateDisplayMetrics (props : properties) (screen_size : vec2i)
  : option DisplayMetrics :=
  match GetDisplaySize props with
  | Some size_in_meters =>
      let meters_per_pixel :=
        (fdiv (fst size_in_meters) (int_to_float (fst screen_size)),
         fdiv (snd size_in_meters) (int_to_float (snd screen_size))) in
      Some {| size_in_pixels := screen_size;
              meters_per_pixel := meters_per_pixel;
              border_size := kScreenBorderSize;
              frame_duration := fdiv (flit 1000 0) kScreenRefreshRate;
              orientation := kDisplayOrientation |}
  | None => None
  end.

Definition CreateUndistortedHeadMountMetrics_fov (props : properties)
  (l_fov r_fov : FieldOfView) : M HeadMountMetrics :=
  do distortion_all <- new IdentityDistortion;
  ret {| inter_lens_distance := GetInterLensDistance props;
         eye_to_display_left := GetVEyeToDisplay props;
         eye_to_display_right := GetVEyeToDisplay props;
         vertical_alignment := kDefaultVerticalAlignment;
         left_fov := l_fov;
         right_fov := r_fov;
         red_distortion := distortion_all;
         green_distortion := distortion_all;
         blue_distortion := distortion_all;
         left_eye_orientation := kCCW0Degrees;
         right_eye_orientation := kCCW0Degrees;
         tray_to_lens_distance :=
           fdiv (fsub (GetInterLensDistance props) (GetDisplayGap props))
                (flit 2 0) |}.

Definition CreateUndistortedHeadMountMetrics (props : properties)
  : M HeadMountMetrics :=
  let fovs := GetMaxFOVs props in
  do lr <- eye_fovs fovs;
  CreateUndistortedHeadMountMetrics_fov props (fst lr) (snd lr).

(* ===================================================================== *)
(** ** What the specification calls tokens and parsed values *)
(* ===================================================================== *)

(** The text split on a delimiter, as the specification words it: the
    pieces between consecutive delimiters, empty pieces included. *)
Fixpoint split_on (deliminator : ascii) (s : string) : list string :=
  match s with
  | EmptyString => [EmptyString]
  | String c rest =>
      if Ascii.eqb c deliminator then EmptyString :: split_on deliminator rest
      else match split_on deliminator rest with
           | piece :: pieces => String c piece :: pieces
           | [] => [String c EmptyString]
           end
  end.

(** The pieces the loop of [SplitString] produces, by recursion on the
    text. *)
Fixpoint lines (d : ascii) (s : string) : list string :=
  match s with
  | EmptyString => []
  | String c rest =>
      if Ascii.eqb c d then EmptyString :: lines d rest
      else match lines d rest with
           | piece :: pieces => String c piece :: pieces
           | [] => [String c EmptyString]
           end
  end.

(** A token parses when [StringToFloat] reports success. *)
Definition parse_token (token : string) : option float :=
  match StringToFloat token with
  | (true, result) => Some result
  | (false, _) => None
  end.

(** The values of the tokens of a text that parse, in order. *)
Definition parsed_values (text : string) : list float :=
  omap parse_token (split_on "," text).

(** The text of a property as the readers see it. *)
Definition text_of (props : properties) (name : string) : string :=
  property_get props name EmptyString.

(** Characters that can continue some number: hexadecimal digits (the
    exponent letter e is one of them), the exponent letter p, the x of the
    hexadecimal prefix, the i of "inity", the point and the parenthesis of
    "nan(". *)
Definition continues (c : ascii) : bool :=
  match Strtof.xdigit_val c with Some _ => true | None => false end
  || Ascii.eqb (Strtof.tolower c) "p" || Ascii.eqb (Strtof.tolower c) "x"
  || Ascii.eqb (Strtof.tolower c) "i" || Ascii.eqb c "." || Ascii.eqb c "(".

(** The text is empty or starts with a character that continues no
    number. *)
Definition ends_number (t : string) : bool :=
  match t with
  | EmptyString => true
  | String c _ => negb (continues c)
  end.

(** A reader of digits takes none of the characters that continue no
    number. *)
Definition digit_reader (dv : ascii -> option Z) : Prop :=
  forall c, continues c = false -> dv c = None.

(** Rational bounds of pi, and what it means for a [float] to be an angle
    in degrees converted to radians, up to a tolerance: the number lies
    within [tol] of [deg * p / 180] for every [p] between the bounds. *)
Definition pi_lo : Q := 31415926535 # 10000000000.
Definition pi_hi : Q := 31415926536 # 10000000000.

Definition radians_within (tol deg : Q) (x : float) : Prop :=
  IEEE.is_finite x = true /\
  (deg * pi_hi / 180 - tol <= IEEE.to_Q x)%Q /\
  (IEEE.to_Q x <= deg * pi_lo / 180 + tol)%Q.

(** The metrics object both head-mount factories build around the three
    channel references. *)
Definition metrics_with (props : properties) (l_fov r_fov : FieldOfView)
  (r g b : loc) : HeadMountMetrics :=
  {| inter_lens_distance := GetInterLensDistance props;
     eye_to_display_left := GetVEyeToDisplay props;
     eye_to_display_right := GetVEyeToDisplay props;
     vertical_alignment := kCenter;
     left_fov := l_fov;
     right_fov := r_fov;
     red_distortion := r;
     green_distortion := g;
     blue_distortion := b;
     left_eye_orientation := kCCW0Degrees;
     right_eye_orientation := kCCW0Degrees;
     tray_to_lens_distance :=
       fdiv (fsub (GetInterLensDistance props) (GetDisplayGap props))
            (flit 2 0) |}.

(** The result of a factory run stores this tray-to-lens offset. *)
Definition stores_offset (expected : float)
  (run : option (HeadMountMetrics * heap)) : Prop :=
  exists m h', run = Some (m, h') /\ tray_to_lens_distance m = expected.

(** The three channels of the result are one new identity distortion. *)
Definition shares_one_identity (h : heap)
  (run : option (HeadMountMetrics * heap)) : Prop :=
  exists m h',
    run = Some (m, h') /\
    red_distortion m = green_distortion m /\
    green_distortion m = blue_distortion m /\
    h !! red_distortion m = None /\
    h' !! red_distortion m = Some IdentityDistortion.

Definition is_polynomial (obj : option ColorChannelDistortion) : Prop :=
  exists offset coefficients,
    obj = Some (PolynomialRadialDistortion offset coefficients).

(** The three channels of the result are three new, pairwise different
    polynomial distortions. *)
Definition has_three_polynomials (h : heap)
  (run : option (HeadMountMetrics * heap)) : Prop :=
  exists m h',
    run = Some (m, h') /\
    red_distortion m <> green_distortion m /\
    green_distortion m <> blue_distortion m /\
    red_distortion m <> blue_distortion m /\
    (h !! red_distortion m = None /\
     h !! green_distortion m = None /\
     h !! blue_distortion m = None) /\
    is_polynomial (h' !! red_distortion m) /\
    is_polynomial (h' !! green_distortion m) /\
    is_polynomial (h' !! blue_distortion m).

(** The channel objects a run of the standard factory leaves in the heap. *)
Definition channels (run : option (HeadMountMetrics * heap))
  : option (ColorChannelDistortion * ColorChannelDistortion
            * ColorChannelDistortion) :=
  match run with
  | Some (m, h') =>
      match h' !! red_distortion m, h' !! green_distortion m,
            h' !! blue_distortion m with
      | Some r, Some g, Some b => Some (r, g, b)
      | _, _, _ => None
      end
  | None => None
  end.

(** A value is malformed through and through when neither the whole text
    nor any of its comma-separated tokens parses. *)
Definition fully_malformed (value : string) : Prop :=
  parse_token value = None /\ parsed_values value = [].

(** Two stores the readers cannot tell apart. *)
Definition same_readings (p q : properties) : Prop :=
  forall name,
    parse_token (text_of p name) = parse_token (text_of q name) /\
    parsed_values (text_of p name) = parsed_values (text_of q name).

(** All five factories (the head-mount ones in both overloads) agree. *)
Definition same_factories (p q : properties) : Prop :=
  (forall screen_size,
      CreateDisplayMetrics p screen_size = CreateDisplayMetrics q screen_size) /\
  (forall l_fov r_fov h,
      CreateHeadMountMetrics_fov p l_fov r_fov h =
      CreateHeadMountMetrics_fov q l_fov r_fov h) /\
  (forall h, CreateHeadMountMetrics p h = CreateHeadMountMetrics q h) /\
  (forall l_fov r_fov h,
      CreateUndistortedHeadMountMetrics_fov p l_fov r_fov h =
      CreateUndistortedHeadMountMetrics_fov q l_fov r_fov h) /\
  (forall h,
      CreateUndistortedHeadMountMetrics p h =
      CreateUndistortedHeadMountMetrics q h).

(** No factory fails, whatever the store holds. *)
Definition factories_succeed (p : properties) : Prop :=
  (forall screen_size, is_Some (CreateDisplayMetrics p screen_size)) /\
  (forall l_fov r_fov h, is_Some (CreateHeadMountMetrics_fov p l_fov r_fov h)) /\
  (forall h, is_Some (CreateHeadMountMetrics p h)) /\
  (forall l_fov r_fov h,
      is_Some (CreateUndistortedHeadMountMetrics_fov p l_fov r_fov h)) /\
  (forall h, is_Some (CreateUndistortedHeadMountMetrics p h)).

(* ===================================================================== *)
(** ** Further notions used to state what the code does *)
(* ===================================================================== *)

(** The pieces put together again with the delimiter between them. *)
Fixpoint join (d : ascii) (pieces : list string) : string :=
  match pieces with
  | [] => EmptyString
  | piece :: rest =>
      match rest with
      | [] => piece
      | _ :: _ => piece +:+ String d (join d rest)
      end
  end.

(** The text without its last character when that is the delimiter. *)
Fixpoint drop_final (d : ascii) (s : string) : string :=
  match s with
  | EmptyString => EmptyString
  | String c rest =>
      match rest with
      | EmptyString => if Ascii.eqb c d then EmptyString else s
      | String _ _ => String c (drop_final d rest)
      end
  end.

(** Does the character occur in the text? *)
Fixpoint has_char (d : ascii) (s : string) : bool :=
  match s with
  | EmptyString => false
  | String c rest => Ascii.eqb c d || has_char d rest
  end.

(** The text is not empty and its last character is not the delimiter. *)
Fixpoint ends_open (d : ascii) (s : string) : bool :=
  match s with
  | EmptyString => false
  | String c rest =>
      match rest with
      | EmptyString => negb (Ascii.eqb c d)
      | String _ _ => ends_open d rest
      end
  end.

(** The text consists of white space only (it may be empty). *)
Fixpoint all_space (s : string) : bool :=
  match s with
  | EmptyString => true
  | String c rest => Strtof.isspace c && all_space rest
  end.

(** The text starts neither with white space nor with a sign. *)
Definition starts_plain (s : string) : bool :=
  match s with
  | EmptyString => true
  | String c _ =>
      negb (Strtof.isspace c) && negb (Ascii.eqb c "-")
      && negb (Ascii.eqb c "+")
  end.

(** The first character after white space and one optional sign. *)
Definition significant (s : string) : option ascii :=
  let '(_, s1) := Strtof.skip_space s in
  let '(_, _, s2) := Strtof.opt_sign s1 in
  match s2 with
  | EmptyString => None
  | String c _ => Some c
  end.

(** The characters a number can start with: a digit, the point, and the
    first letters of "inf" and "nan" in either case. *)
Definition may_start (c : ascii) : bool :=
  match Strtof.digit_val c with Some _ => true | None => false end
  || Ascii.eqb c "."
  || Ascii.eqb (Strtof.tolower c) "i" || Ascii.eqb (Strtof.tolower c) "n".

(** The keys the head-mount factories read. *)
Definition keys_read : list string :=
  [kRGBPolynomialOffset; kRPolynomial; kGPolynomial; kBPolynomial;
   kLensDistance; kDisplayGap; kVEyeToDisplay; kFovIOBT].

(** A run succeeds, keeps every object of the heap it started from and
    adds [n] new ones. *)
Definition extends_by (n : nat) (h : heap)
  (run : option (HeadMountMetrics * heap)) : Prop :=
  exists m h', run = Some (m, h') /\ h ⊆ h' /\ size h' = size h + n.

(** Two metrics objects agree in everything but the channel references. *)
Definition same_optics (m1 m2 : HeadMountMetrics) : Prop :=
  inter_lens_distance m1 = inter_lens_distance m2 /\
  eye_to_display_left m1 = eye_to_display_left m2 /\
  eye_to_display_right m1 = eye_to_display_right m2 /\
  vertical_alignment m1 = vertical_alignment m2 /\
  left_fov m1 = left_fov m2 /\
  right_fov m1 = right_fov m2 /\
  left_eye_orientation m1 = left_eye_orientation m2 /\
  right_eye_orientation m1 = right_eye_orientation m2 /\
  tray_to_lens_distance m1 = tray_to_lens_distance m2.

(** The channel references of a metrics object. *)
Definition channel_refs (m : HeadMountMetrics) : list loc :=
  [red_distortion m; green_distortion m; blue_distortion m].

(* ===================================================================== *)
(** ** Facts about [strtof]: what follows a number *)
(* ===================================================================== *)

Module StrtofFacts.
Import Strtof.
Local Open Scope nat_scope.

Ltac each_char c :=
  destruct c as [[] [] [] [] [] [] [] []]; vm_compute;
  try discriminate; try (intros; repeat split; congruence).

Lemma continues_false c :
  continues c = false ->
  xdigit_val c = None /\ digit_val c = None /\
  Ascii.eqb (tolower c) "e" = false /\ Ascii.eqb (tolower c) "p" = false /\
  Ascii.eqb (tolower c) "x" = false /\ Ascii.eqb (tolower c) "i" = false /\
  Ascii.eqb c "." = false /\ Ascii.eqb c "(" = false.
Proof. each_char c. Qed.

Lemma letter_x c :
  Ascii.eqb (tolower c) "x" = true ->
  digit_val c = None /\ Ascii.eqb c "." = false /\
  Ascii.eqb (tolower c) "e" = false.
Proof. each_char c. Qed.

Lemma letter_i c :
  Ascii.eqb (tolower c) "i" = true ->
  digit_val c = None /\ Ascii.eqb c "." = false /\ Ascii.eqb c "0" = false.
Proof. each_char c. Qed.

Lemma letter_n c :
  Ascii.eqb (tolower c) "n" = true ->
  digit_val c = None /\ Ascii.eqb c "." = false /\ Ascii.eqb c "0" = false
  /\ Ascii.eqb (tolower c) "i" = false.
Proof. each_char c. Qed.

Lemma append_empty t : EmptyString +:+ t = t.
Proof. reflexivity. Qed.

Lemma append_char c s t : String c s +:+ t = String c (s +:+ t).
Proof. reflexivity. Qed.

Ltac push_append := rewrite ?append_char, ?append_empty.

Lemma ends_number_cases t :
  ends_number t = true ->
  t = EmptyString \/ exists c t', t = String c t' /\ continues c = false.
Proof.
  destruct t as [|c t']; [by left|]. simpl. intros H. right.
  exists c, t'. split; [done|]. by apply negb_true_iff.
Qed.

Lemma digit_reader_decimal : digit_reader digit_val.
Proof. intros c H. by apply continues_false in H as (_ & H & _). Qed.

Lemma digit_reader_hexadecimal : digit_reader xdigit_val.
Proof. intros c H. by apply continues_false in H as (H & _). Qed.

Lemma skip_space_length s n r :
  skip_space s = (n, r) -> String.length s = n + String.length r.
Proof.
  revert n r; induction s as [|c s IH]; intros n r; simpl.
  - by intros [= <- <-].
  - destruct (isspace c).
    + destruct (skip_space s) as [n' r'] eqn:E. intros [= <- <-].
      rewrite (IH _ _ eq_refl). lia.
    + by intros [= <- <-].
Qed.

Lemma skip_space_app s t n c r :
  skip_space s = (n, String c r) ->
  skip_space (s +:+ t) = (n, String c r +:+ t).
Proof.
  revert n; induction s as [|a s IH]; intros n; simpl; [discriminate|].
  destruct (isspace a) eqn:Ea.
  - destruct (skip_space s) as [n' r'] eqn:E. intros [= <- ->].
    by rewrite (IH _ eq_refl).
  - intros ?; simplify_eq. cbn [String.append skip_space].
    rewrite ?Ea. reflexivity.
Qed.

Lemma opt_sign_length s neg n r :
  opt_sign s = (neg, n, r) -> String.length s = n + String.length r.
Proof.
  destruct s as [|c s]; simpl; [by intros [= <- <- <-]|].
  destruct (Ascii.eqb c "-"); [by intros [= <- <- <-]|].
  destruct (Ascii.eqb c "+"); by intros [= <- <- <-].
Qed.

Lemma opt_sign_app s t neg n c r :
  opt_sign s = (neg, n, String c r) ->
  opt_sign (s +:+ t) = (neg, n, String c r +:+ t).
Proof.
  destruct s as [|a s]; simpl; [discriminate|].
  destruct (Ascii.eqb a "-"); [by intros [= <- <- ->]|].
  destruct (Ascii.eqb a "+"); [by intros [= <- <- ->]|].
  by intros [= <- <- -> ->].
Qed.

Lemma scan_digits_length dv base acc s v n r :
  scan_digits dv base acc s = (v, n, r) ->
  String.length s = n + String.length r.
Proof.
  revert acc v n r; induction s as [|c s IH]; intros acc v n r; simpl.
  - by intros [= <- <- <-].
  - destruct (dv c) as [d|].
    + destruct (scan_digits dv base (acc * base + d) s) as [[v' n'] r'] eqn:E.
      intros [= <- <- <-]. rewrite (IH _ _ _ _ E). lia.
    + by intros [= <- <- <-].
Qed.

Lemma scan_digits_app dv base acc s t v n r :
  digit_reader dv -> ends_number t = true ->
  scan_digits dv base acc s = (v, n, r) ->
  scan_digits dv base acc (s +:+ t) = (v, n, r +:+ t).
Proof.
  intros Hdv Ht. revert acc v n r; induction s as [|c s IH];
    intros acc v n r; simpl.
  - intros [= <- <- <-].
    destruct (ends_number_cases t Ht) as [-> | (c & t' & -> & Hc)]; [done|].
    simpl. by rewrite (Hdv c Hc).
  - destruct (dv c) as [d|].
    + destruct (scan_digits dv base (acc * base + d) s) as [[v' n'] r'] eqn:E.
      intros [= <- <- <-]. by rewrite (IH _ _ _ _ E).
    + by intros [= <- <- <-].
Qed.

Lemma mantissa_length dv base s m nf n r :
  mantissa dv base s = Some (m, nf, n, r) ->
  String.length s = n + String.length r.
Proof.
  unfold mantissa.
  destruct (scan_digits dv base 0 s) as [[vi ni] r1] eqn:E1.
  apply scan_digits_length in E1.
  destruct r1 as [|c r2].
  - destruct (ni =? 0); [discriminate|]. intros [= <- <- <- <-]. lia.
  - destruct (Ascii.eqb c ".").
    + destruct (scan_digits dv base vi r2) as [[vf nf'] r3] eqn:E2.
      apply scan_digits_length in E2.
      destruct (ni + nf' =? 0); [discriminate|].
      intros [= <- <- <- <-]. simpl in E1. lia.
    + destruct (ni =? 0); [discriminate|]. intros [= <- <- <- <-]. lia.
Qed.

Lemma mantissa_app dv base s t m nf n r :
  digit_reader dv -> ends_number t = true ->
  mantissa dv base s = Some (m, nf, n, r) ->
  mantissa dv base (s +:+ t) = Some (m, nf, n, r +:+ t).
Proof.
  intros Hdv Ht. unfold mantissa.
  destruct (scan_digits dv base 0 s) as [[vi ni] r1] eqn:E1.
  rewrite (scan_digits_app _ _ _ _ t _ _ _ Hdv Ht E1).
  destruct r1 as [|c r2].
  - destruct (ni =? 0) eqn:En; [discriminate|]. intros [= <- <- <- <-].
    destruct (ends_number_cases t Ht) as [-> | (c & t' & -> & Hc)];
      push_append.
    + reflexivity.
    + apply continues_false in Hc as (_ & _ & _ & _ & _ & _ & Hp & _).
      by rewrite Hp.
  - push_append. destruct (Ascii.eqb c ".").
    + destruct (scan_digits dv base vi r2) as [[vf nf'] r3] eqn:E2.
      rewrite (scan_digits_app _ _ _ _ t _ _ _ Hdv Ht E2).
      destruct (ni + nf' =? 0); [discriminate|]. by intros [= <- <- <- <-].
    + destruct (ni =? 0); [discriminate|]. by intros [= <- <- <- <-].
Qed.

Lemma exponent_app mark s t e ne :
  (forall c, continues c = false -> Ascii.eqb (tolower c) mark = false) ->
  ends_number t = true ->
  exponent mark s = (e, ne) -> ne = String.length s ->
  exponent mark (s +:+ t) = (e, ne).
Proof.
  intros Hmark Ht. destruct s as [|c r]; unfold exponent; push_append.
  - intros [= <- <-] _.
    destruct (ends_number_cases t Ht) as [-> | (c & t' & -> & Hc)]; [done|].
    by rewrite (Hmark c Hc).
  - destruct (Ascii.eqb (tolower c) mark); [|intros [= <- <-]; discriminate].
    destruct (opt_sign r) as [[neg ns] r1] eqn:Es.
    destruct (scan_digits digit_val 10 0 r1) as [[v n] r'] eqn:Ed.
    destruct (n =? 0) eqn:En; [intros [= <- <-]; discriminate|].
    intros [= <- <-] Hlen.
    pose proof (opt_sign_length _ _ _ _ Es) as L1.
    pose proof (scan_digits_length _ _ _ _ _ _ _ Ed) as L2.
    cbn [String.length] in Hlen.
    assert (r' = EmptyString) as -> by (destruct r'; [done|simpl in L2; lia]).
    apply Nat.eqb_neq in En.
    destruct r1 as [|c1 r1']; [simpl in L2; lia|].
    rewrite (opt_sign_app _ t _ _ _ _ Es).
    rewrite (scan_digits_app _ _ _ _ t _ _ _ digit_reader_decimal Ht Ed).
    apply Nat.eqb_neq in En. by rewrite En.
Qed.

Lemma mark_e c : continues c = false -> Ascii.eqb (tolower c) "e" = false.
Proof. intros H. by apply continues_false in H as (_ & _ & H & _). Qed.

Lemma mark_p c : continues c = false -> Ascii.eqb (tolower c) "p" = false.
Proof. intros H. by apply continues_false in H as (_ & _ & _ & H & _). Qed.

Lemma decimal_app s t mk n :
  ends_number t = true ->
  decimal s = Some (mk, n) -> n = String.length s ->
  decimal (s +:+ t) = Some (mk, n).
Proof.
  intros Ht. unfold decimal.
  destruct (mantissa digit_val 10 s) as [[[[m nf] n1] r]|] eqn:Em;
    [|discriminate].
  destruct (exponent "e" r) as [e ne] eqn:Ee.
  intros [= <- <-] Hlen.
  pose proof (mantissa_length _ _ _ _ _ _ _ Em) as L.
  rewrite (mantissa_app _ _ _ t _ _ _ _ digit_reader_decimal Ht Em).
  rewrite (exponent_app "e" r t e ne mark_e Ht Ee); [done|lia].
Qed.

Lemma hexadecimal_app s t mk n :
  ends_number t = true ->
  hexadecimal s = Some (mk, n) -> n = String.length s ->
  hexadecimal (s +:+ t) = Some (mk, n).
Proof.
  intros Ht. destruct s as [|c [|x r]]; try discriminate.
  unfold hexadecimal; push_append.
  destruct (Ascii.eqb c "0" && Ascii.eqb (tolower x) "x"); [|discriminate].
  destruct (mantissa xdigit_val 16 r) as [[[[m nf] n1] r']|] eqn:Em;
    [|discriminate].
  destruct (exponent "p" r') as [e ne] eqn:Ee.
  intros [= <- <-] Hlen. cbn [String.length] in Hlen.
  pose proof (mantissa_length _ _ _ _ _ _ _ Em) as L.
  rewrite (mantissa_app _ _ _ t _ _ _ _ digit_reader_hexadecimal Ht Em).
  rewrite (exponent_app "p" r' t e ne mark_p Ht Ee); [done|lia].
Qed.

Lemma prefix_ci_length pat s r :
  prefix_ci pat s = Some r ->
  String.length s = String.length pat + String.length r.
Proof.
  revert s; induction pat as [|p pat IH]; intros s; simpl.
  - by intros [= ->].
  - destruct s as [|c s]; [discriminate|].
    destruct (Ascii.eqb (tolower c) p); [|discriminate].
    intros H. simpl. by rewrite (IH _ H).
Qed.

Lemma prefix_ci_app pat s t r :
  prefix_ci pat s = Some r -> prefix_ci pat (s +:+ t) = Some (r +:+ t).
Proof.
  revert s; induction pat as [|p pat IH]; intros s; simpl.
  - by intros [= ->].
  - destruct s as [|c s]; [discriminate|]. push_append.
    destruct (Ascii.eqb (tolower c) p); [|discriminate]. apply IH.
Qed.

Lemma prefix_ci_head p pat s r :
  prefix_ci (String p pat) s = Some r ->
  exists c s', s = String c s' /\ Ascii.eqb (tolower c) p = true.
Proof.
  destruct s as [|c s']; simpl; [discriminate|].
  destruct (Ascii.eqb (tolower c) p) eqn:E; [|discriminate].
  intros _. by exists c, s'.
Qed.

Lemma prefix_ci_mismatch p pat c s :
  Ascii.eqb (tolower c) p = false ->
  prefix_ci (String p pat) (String c s) = None.
Proof. intros H. simpl. by rewrite H. Qed.

Lemma infinity_app s t mk n :
  ends_number t = true ->
  infinity s = Some (mk, n) -> n = String.length s ->
  infinity (s +:+ t) = Some (mk, n).
Proof.
  intros Ht. unfold infinity.
  destruct (prefix_ci "inf" s) as [r|] eqn:E1; [|discriminate].
  rewrite (prefix_ci_app _ _ t _ E1).
  pose proof (prefix_ci_length _ _ _ E1) as L1.
  destruct (prefix_ci "inity" r) as [r'|] eqn:E2.
  - by rewrite (prefix_ci_app _ _ t _ E2).
  - intros [= <- <-] Hlen.
    assert (r = EmptyString) as -> by (destruct r; [done|simpl in L1; lia]).
    push_append.
    destruct (ends_number_cases t Ht) as [-> | (c & t' & -> & Hc)]; [done|].
    apply continues_false in Hc as (_ & _ & _ & _ & _ & Hi & _).
    by rewrite (prefix_ci_mismatch _ _ _ _ Hi).
Qed.

Lemma scan_nchars_length s n r :
  scan_nchars s = (n, r) -> String.length s = n + String.length r.
Proof.
  revert n r; induction s as [|c s IH]; intros n r; simpl.
  - by intros [= <- <-].
  - destruct (isnchar c).
    + destruct (scan_nchars s) as [n' r'] eqn:E. intros [= <- <-].
      rewrite (IH _ _ eq_refl). lia.
    + by intros [= <- <-].
Qed.

Lemma scan_nchars_app s t n c r :
  scan_nchars s = (n, String c r) ->
  scan_nchars (s +:+ t) = (n, String c r +:+ t).
Proof.
  revert n; induction s as [|a s IH]; intros n; [discriminate|].
  cbn [scan_nchars]. push_append. cbn [scan_nchars].
  destruct (isnchar a) eqn:Ea.
  - destruct (scan_nchars s) as [n' r'] eqn:E. intros [= <- ->].
    by rewrite (IH _ eq_refl).
  - intros [= <- <- <-]. reflexivity.
Qed.

Lemma nan_app s t mk n :
  ends_number t = true ->
  nan s = Some (mk, n) -> n = String.length s ->
  nan (s +:+ t) = Some (mk, n).
Proof.
  intros Ht. unfold nan.
  destruct (prefix_ci "nan" s) as [r|] eqn:E1; [|discriminate].
  rewrite (prefix_ci_app _ _ t _ E1).
  pose proof (prefix_ci_length _ _ _ E1) as L1. cbn [String.length] in L1.
  destruct r as [|c r0]; push_append.
  - intros [= <- <-] _.
    destruct (ends_number_cases t Ht) as [-> | (c & t' & -> & Hc)]; [done|].
    apply continues_false in Hc as (_ & _ & _ & _ & _ & _ & _ & Hp).
    by rewrite Hp.
  - cbn [String.length] in L1.
    destruct (Ascii.eqb c "("); [|intros [= <- <-]; lia].
    destruct (scan_nchars r0) as [k r'] eqn:Ek.
    destruct r' as [|c' r'']; [intros [= <- <-]; lia|].
    rewrite (scan_nchars_app _ t _ _ _ Ek). push_append.
    destruct (Ascii.eqb c' ")"); [done|intros [= <- <-]; lia].
Qed.

Lemma hexadecimal_head c s :
  Ascii.eqb c "0" = false -> hexadecimal (String c s) = None.
Proof. intros H. destruct s; simpl; [done|]. by rewrite H. Qed.

Lemma decimal_head c s :
  digit_val c = None -> Ascii.eqb c "." = false ->
  decimal (String c s) = None.
Proof.
  intros Hd Hp. unfold decimal, mantissa. cbn [scan_digits].
  by rewrite Hd, Hp.
Qed.

Lemma infinity_head c s :
  Ascii.eqb (tolower c) "i" = false -> infinity (String c s) = None.
Proof. intros H. unfold infinity. by rewrite (prefix_ci_mismatch _ _ _ _ H). Qed.

(** A text that starts with "0x" without a hexadecimal number after it
    is read as the decimal number 0, one character long. *)
Lemma decimal_zero_x x r mk n :
  Ascii.eqb (tolower x) "x" = true ->
  decimal (String "0" (String x r)) = Some (mk, n) -> n = 1.
Proof.
  intros Hx. apply letter_x in Hx as (Hd & Hp & He).
  unfold decimal, mantissa. cbn [scan_digits].
  change (digit_val "0") with (Some 0%Z). cbv iota beta. rewrite Hd.
  cbv iota beta. rewrite Hp. cbn [Nat.eqb]. unfold exponent. rewrite He.
  by intros [= <- <-].
Qed.

Lemma hexadecimal_not_decimal s t mk :
  ends_number t = true ->
  hexadecimal s = None -> decimal s = Some (mk, String.length s) ->
  hexadecimal (s +:+ t) = None.
Proof.
  intros Ht. destruct s as [|c [|x r]]; push_append.
  - discriminate.
  - intros _ _.
    destruct (ends_number_cases t Ht) as [-> | (x & t' & -> & Hx)]; [done|].
    apply continues_false in Hx as (_ & _ & _ & _ & Hx & _).
    unfold hexadecimal. by rewrite Hx, andb_false_r.
  - unfold hexadecimal at 1 2.
    destruct (Ascii.eqb c "0" && Ascii.eqb (tolower x) "x") eqn:E; [|done].
    apply andb_prop in E as [Ec Ex]. apply Ascii.eqb_eq in Ec as ->.
    intros _ Hd. apply (decimal_zero_x _ _ _ _ Ex) in Hd. discriminate Hd.
Qed.

Lemma subject_app s t mk n :
  ends_number t = true ->
  subject s = Some (mk, n) -> n = String.length s ->
  subject (s +:+ t) = Some (mk, n).
Proof.
  intros Ht. unfold subject.
  destruct (hexadecimal s) as [[mk' n']|] eqn:Eh.
  { intros [= <- <-] Hlen. by rewrite (hexadecimal_app _ t _ _ Ht Eh Hlen). }
  destruct (decimal s) as [[mk' n']|] eqn:Ed.
  { intros [= <- <-] Hlen. subst n'.
    rewrite (hexadecimal_not_decimal _ t _ Ht Eh Ed).
    by rewrite (decimal_app _ t _ _ Ht Ed eq_refl). }
  destruct (infinity s) as [[mk' n']|] eqn:Ei.
  { intros [= <- <-] Hlen.
    rewrite (infinity_app _ t _ _ Ht Ei Hlen).
    unfold infinity in Ei.
    destruct (prefix_ci "inf" s) as [r|] eqn:E1; [|discriminate].
    apply prefix_ci_head in E1 as (c & s' & -> & Hc).
    apply letter_i in Hc as (Hd & Hp & H0). push_append.
    by rewrite (hexadecimal_head _ _ H0), (decimal_head _ _ Hd Hp). }
  intros En Hlen. rewrite (nan_app _ t _ _ Ht En Hlen).
  unfold nan in En.
  destruct (prefix_ci "nan" s) as [r|] eqn:E1; [|discriminate].
  apply prefix_ci_head in E1 as (c & s' & -> & Hc).
  apply letter_n in Hc as (Hd & Hp & H0 & Hi). push_append.
  by rewrite (hexadecimal_head _ _ H0), (decimal_head _ _ Hd Hp),
    (infinity_head _ _ Hi).
Qed.

(** What follows a text that [strtof] converts whole does not change the
    conversion, provided it starts with a character that continues no
    number. *)
Lemma strtof_app s t v :
  s <> EmptyString -> ends_number t = true ->
  strtof s = (v, String.length s) ->
  strtof (s +:+ t) = (v, String.length s).
Proof.
  intros Hs Ht. unfold strtof.
  destruct (skip_space s) as [nw s1] eqn:Ew.
  destruct (opt_sign s1) as [[neg ns] s2] eqn:Es.
  pose proof (skip_space_length _ _ _ Ew) as L1.
  pose proof (opt_sign_length _ _ _ _ Es) as L2.
  destruct (subject s2) as [[mk n]|] eqn:Eb.
  - intros [= <- Hlen].
    destruct s2 as [|c2 s2']; [discriminate Eb|].
    destruct s1 as [|c1 s1']; [discriminate Es|].
    rewrite (skip_space_app _ t _ _ _ Ew), (opt_sign_app _ t _ _ _ _ Es).
    rewrite (subject_app _ t mk n Ht Eb); [|lia].
    by rewrite Hlen.
  - intros [= <- Hlen]. destruct s; [done|discriminate Hlen].
Qed.

End StrtofFacts.

(* ===================================================================== *)
(** ** The readers *)
(* ===================================================================== *)

Section Readers.

Implicit Types (s ss : string) (d : ascii) (props : properties).

Lemma getline_chars_length ss d :
  String.length (snd (getline_chars ss d)) <= String.length ss.
Proof.
  induction ss as [|c rest IH]; simpl; [lia|].
  destruct (Ascii.eqb c d); simpl; [lia|].
  destruct (getline_chars rest d) as [sub rest']; simpl in *; lia.
Qed.

Lemma lines_getline c rest d :
  lines d (String c rest) =
  fst (getline_chars (String c rest) d)
    :: lines d (snd (getline_chars (String c rest) d)).
Proof.
  revert c; induction rest as [|c' rest IH]; intros c.
  - simpl. destruct (Ascii.eqb c d); reflexivity.
  - change (lines d (String c (String c' rest)))
      with (if Ascii.eqb c d then EmptyString :: lines d (String c' rest)
            else match lines d (String c' rest) with
                 | piece :: pieces => String c piece :: pieces
                 | [] => [String c EmptyString]
                 end).
    change (getline_chars (String c (String c' rest)) d)
      with (if Ascii.eqb c d then (EmptyString, String c' rest)
            else let '(sub, rest') := getline_chars (String c' rest) d in
                 (String c sub, rest')).
    destruct (Ascii.eqb c d); [reflexivity|].
    rewrite (IH c').
    destruct (getline_chars (String c' rest) d) as [sub rest']; reflexivity.
Qed.

Lemma SplitString_loop_lines fuel ss d result :
  String.length ss < fuel ->
  SplitString_loop fuel ss d result = result ++ lines d ss.
Proof.
  revert ss result; induction fuel as [|fuel IH]; intros ss result Hlt;
    [lia|].
  destruct ss as [|c rest].
  - simpl. by rewrite app_nil_r.
  - cbn [SplitString_loop getline].
    pose proof (getline_chars_length (String c rest) d) as Hlen.
    rewrite (lines_getline c rest d).
    destruct (getline_chars (String c rest) d) as [sub rest'] eqn:E.
    cbn [fst snd] in *.
    assert (String.length rest' < fuel) as Hfuel.
    { assert (String.length rest' <= String.length rest); [|simpl in *; lia].
      revert E; simpl. destruct (Ascii.eqb c d).
      - intros [= <- <-]; lia.
      - pose proof (getline_chars_length rest d) as H'.
        destruct (getline_chars rest d) as [a b]; intros [= <- <-].
        exact H'. }
    rewrite (IH rest' (result ++ [sub]) Hfuel).
    by rewrite <- app_assoc.
Qed.

(** The loop stops because [getline] fails, not because the bound on
    its iterations is reached: any larger bound gives the same list. *)
Lemma SplitString_loop_fuel fuel s d :
  String.length s < fuel ->
  SplitString_loop fuel s d [] = SplitString s d.
Proof.
  intros H. unfold SplitString.
  rewrite !SplitString_loop_lines; [reflexivity | lia | exact H].
Qed.

Lemma SplitString_lines s d : SplitString s d = lines d s.
Proof. unfold SplitString. rewrite SplitString_loop_lines; [done | lia]. Qed.

(** [getline] yields the pieces of the text, except for one empty piece
    at the very end (after a final delimiter, or of an empty text). *)
Lemma split_on_lines d s :
  split_on d s = lines d s \/ split_on d s = lines d s ++ [EmptyString].
Proof.
  induction s as [|c rest IH]; simpl.
  - by right.
  - destruct (Ascii.eqb c d).
    + destruct IH as [-> | ->]; [by left | by right].
    + destruct IH as [-> | ->].
      * by left.
      * destruct (lines d rest) as [|piece pieces]; simpl; [by left|by right].
Qed.

Lemma parse_token_empty : parse_token EmptyString = None.
Proof. reflexivity. Qed.

Lemma parse_values_omap values :
  parse_values values = omap parse_token values.
Proof.
  unfold parse_values.
  enough (forall acc,
    fold_left
      (fun results value =>
         match StringToFloat value with
         | (true, result) => results ++ [result]
         | (false, _) => results
         end) values acc = acc ++ omap parse_token values) as H.
  { by rewrite H. }
  induction values as [|v values IH]; intros acc; simpl.
  - by rewrite app_nil_r.
  - rewrite IH. unfold parse_token.
    destruct (StringToFloat v) as [[|] x]; [|done].
    by rewrite <- app_assoc.
Qed.

(** The vector the reader builds before it looks at the default. *)
Lemma parse_values_SplitString s :
  parse_values (SplitString s ",") = parsed_values s.
Proof.
  rewrite parse_values_omap, SplitString_lines. unfold parsed_values.
  destruct (split_on_lines "," s) as [-> | ->]; [done|].
  rewrite omap_app.
  replace (omap parse_token [EmptyString]) with (@nil float)
    by (cbn [omap list_omap]; by rewrite parse_token_empty).
  by rewrite app_nil_r.
Qed.

Lemma GetProperty_vector_parsed props name default_values :
  GetProperty_vector props name default_values =
  match parsed_values (text_of props name) with
  | [] => default_values
  | v :: vs => v :: vs
  end.
Proof.
  unfold GetProperty_vector. rewrite parse_values_SplitString.
  unfold text_of. by destruct (parsed_values _).
Qed.

Lemma GetProperty_vector_nonempty props name default_values :
  default_values <> [] ->
  GetProperty_vector props name default_values <> [].
Proof.
  intros Hd. rewrite GetProperty_vector_parsed.
  by destruct (parsed_values _).
Qed.

End Readers.

(* ===================================================================== *)
(** ** The getters and the factories, step by step *)
(* ===================================================================== *)

Section Factories.

Implicit Types (props : properties) (h : heap) (l_fov r_fov : FieldOfView).

Lemma GetDisplaySize_default props :
  GetDisplaySize props = Some (flit 742177 (-7), flit 131943 (-6)).
Proof.
  unfold GetDisplaySize.
  pose proof (GetProperty_vector_nonempty props kScreenSize default_size)
    as Hne.
  destruct (GetProperty_vector props kScreenSize default_size) as [|x xs].
  - exfalso. by apply Hne.
  - reflexivity.
Qed.

Lemma checked_offsets_length props : length (checked_offsets props) = 3.
Proof.
  unfold checked_offsets.
  destruct (length (GetProperty_vector _ _ _) =? 3)%nat eqn:E; simpl.
  - by apply Nat.eqb_eq.
  - reflexivity.
Qed.

Lemma checked_offsets_cases props :
  let parsed := parsed_values (text_of props kRGBPolynomialOffset) in
  checked_offsets props =
  if decide (length parsed = 3) then parsed else default_offsets.
Proof.
  intros parsed. unfold checked_offsets.
  rewrite GetProperty_vector_parsed. fold parsed.
  destruct parsed as [|v vs] eqn:E.
  - reflexivity.
  - destruct (decide (length (v :: vs) = 3)) as [Hl|Hl].
    + apply Nat.eqb_eq in Hl. by rewrite Hl.
    + apply Nat.eqb_neq in Hl. by rewrite Hl.
Qed.

Lemma GetMaxFOVs_cases props :
  let parsed := parsed_values (text_of props kFovIOBT) in
  GetMaxFOVs props =
  map to_radians (if decide (length parsed = 4) then parsed
                  else default_fovs).
Proof.
  intros parsed. unfold GetMaxFOVs.
  rewrite GetProperty_vector_parsed. fold parsed.
  destruct parsed as [|v vs] eqn:E.
  - reflexivity.
  - destruct (decide (length (v :: vs) = 4)) as [Hl|Hl].
    + apply Nat.eqb_eq in Hl. by rewrite Hl.
    + apply Nat.eqb_neq in Hl. by rewrite Hl.
Qed.

Lemma GetMaxFOVs_length props : length (GetMaxFOVs props) = 4.
Proof.
  rewrite GetMaxFOVs_cases. rewrite length_map.
  by destruct (decide _).
Qed.

Lemma eye_fovs_run props h :
  exists f0 f1 f2 f3,
    GetMaxFOVs props = [f0; f1; f2; f3] /\
    eye_fovs (GetMaxFOVs props) h =
    Some (({| fov_1 := f1; fov_2 := f0;
              fov_3 := f2; fov_4 := f3 |},
           {| fov_1 := f0; fov_2 := f1;
              fov_3 := f2; fov_4 := f3 |}), h).
Proof.
  pose proof (GetMaxFOVs_length props) as Hl.
  destruct (GetMaxFOVs props) as [|f0 [|f1 [|f2 [|f3 [|]]]]];
    try discriminate Hl.
  by exists f0, f1, f2, f3.
Qed.

Lemma CreateHeadMountMetrics_fov_run props l_fov r_fov h :
  exists o_r o_g o_b,
    checked_offsets props = [o_r; o_g; o_b] /\
    let obj_r := PolynomialRadialDistortion o_r
                   (GetProperty_vector props kRPolynomial default_r) in
    let obj_g := PolynomialRadialDistortion o_g
                   (GetProperty_vector props kGPolynomial default_g) in
    let obj_b := PolynomialRadialDistortion o_b
                   (GetProperty_vector props kBPolynomial default_b) in
    let l_r := fresh (dom h) in
    let h_r := <[l_r := obj_r]> h in
    let l_g := fresh (dom h_r) in
    let h_g := <[l_g := obj_g]> h_r in
    let l_b := fresh (dom h_g) in
    let h_b := <[l_b := obj_b]> h_g in
    CreateHeadMountMetrics_fov props l_fov r_fov h =
    Some (metrics_with props l_fov r_fov l_r l_g l_b, h_b).
Proof.
  pose proof (checked_offsets_length props) as Hl.
  unfold CreateHeadMountMetrics_fov.
  destruct (checked_offsets props) as [|o_r [|o_g [|o_b [|]]]];
    try discriminate Hl.
  by exists o_r, o_g, o_b.
Qed.

Lemma CreateUndistortedHeadMountMetrics_fov_run props l_fov r_fov h :
  let l := fresh (dom h) in
  CreateUndistortedHeadMountMetrics_fov props l_fov r_fov h =
  Some (metrics_with props l_fov r_fov l l l, <[l := IdentityDistortion]> h).
Proof. reflexivity. Qed.

(** Three allocations in a row give three different addresses, none of
    them in use before, and leave the three objects in the heap. *)
Lemma three_allocations h (a b c : ColorChannelDistortion) :
  let l_a := fresh (dom h) in
  let h_a := <[l_a := a]> h in
  let l_b := fresh (dom h_a) in
  let h_b := <[l_b := b]> h_a in
  let l_c := fresh (dom h_b) in
  let h_c := <[l_c := c]> h_b in
  (l_a <> l_b /\ l_b <> l_c /\ l_a <> l_c) /\
  (h !! l_a = None /\ h !! l_b = None /\ h !! l_c = None) /\
  (h_c !! l_a = Some a /\ h_c !! l_b = Some b /\ h_c !! l_c = Some c).
Proof.
  intros l_a h_a l_b h_b l_c h_c.
  assert (l_a ∉ dom h) as Ha by apply is_fresh.
  assert (l_b ∉ dom h_a) as Hb by apply is_fresh.
  assert (l_c ∉ dom h_b) as Hc by apply is_fresh.
  unfold h_b in Hc. rewrite dom_insert_L in Hc.
  unfold h_a in Hb, Hc. rewrite dom_insert_L in Hb, Hc.
  assert (l_a <> l_b) as Hab by set_solver.
  assert (l_b <> l_c) as Hbc by set_solver.
  assert (l_a <> l_c) as Hac by set_solver.
  split; [done|]. split.
  - repeat split; apply not_elem_of_dom; set_solver.
  - unfold h_c, h_b, h_a. repeat split.
    + rewrite lookup_insert_ne by done. rewrite lookup_insert_ne by done.
      apply lookup_insert_eq.
    + rewrite lookup_insert_ne by done. apply lookup_insert_eq.
    + apply lookup_insert_eq.
Qed.

End Factories.

(* ===================================================================== *)
(** ** Display size *)
(* ===================================================================== *)

(** C2.  Whatever the [screen_size] property holds, [GetDisplaySize]
    returns the compiled-in size {0.0742177, 0.131943}: the vector reader
    never returns an empty vector for this default, so the test
    [sizes.size() != 0] always succeeds and the default replaces what was
    read. *)
Theorem GetDisplaySize_always_default (props : properties) :
  length (GetProperty_vector props kScreenSize default_size) <> 0 /\
  GetDisplaySize props = Some (flit 742177 (-7), flit 131943 (-6)).
Proof.
  split.
  - intros H. apply (GetProperty_vector_nonempty props kScreenSize default_size).
    + discriminate.
    + by apply length_zero_iff_nil.
  - apply GetDisplaySize_default.
Qed.

(** C1.  With [screen_size] set to "0.05,0.1" the text parses to exactly
    the two values 0.05 and 0.1, and [GetDisplaySize] still returns the
    compiled-in size instead of them. *)
Theorem GetDisplaySize_discards_two_components :
  let props : properties := <[kScreenSize := "0.05,0.1"]> ∅ in
  parsed_values (text_of props kScreenSize) = [flit 5 (-2); flit 1 (-1)] /\
  GetProperty_vector props kScreenSize default_size
    = [flit 5 (-2); flit 1 (-1)] /\
  GetDisplaySize props = Some (flit 742177 (-7), flit 131943 (-6)) /\
  GetDisplaySize props <> Some (flit 5 (-2), flit 1 (-1)).
Proof.
  vm_compute. repeat split; try reflexivity. discriminate.
Qed.

(* ===================================================================== *)
(** ** The vector reader *)
(* ===================================================================== *)

(** C5.  Of the M comma-separated tokens of a property text, the N that
    parse give the vector the reader returns, in their order of
    appearance; when none parses (N = 0) the reader returns the default
    vector it was given. *)
Theorem GetProperty_vector_tokens (props : properties) (name : string)
  (default_values : list float) :
  let tokens := split_on "," (text_of props name) in
  let parsed := omap parse_token tokens in
  length parsed <= length tokens /\
  GetProperty_vector props name default_values =
  (if decide (length parsed = 0) then default_values else parsed).
Proof.
  intros tokens parsed. split.
  - subst parsed. clear. induction tokens as [|t ts IH]; [done|].
    cbn [omap list_omap length]. fold (omap parse_token ts).
    destruct (parse_token t); cbn [length]; lia.
  - rewrite GetProperty_vector_parsed. unfold parsed_values.
    fold tokens. fold parsed. by destruct parsed.
Qed.

(* ===================================================================== *)
(** ** Field of view *)
(* ===================================================================== *)

Lemma radians_within_check tol deg x :
  (IEEE.is_finite x &&
   Qle_bool (deg * pi_hi / 180 - tol) (IEEE.to_Q x) &&
   Qle_bool (IEEE.to_Q x) (deg * pi_lo / 180 + tol))%bool = true ->
  radians_within tol deg x.
Proof.
  intros H. apply andb_prop in H as [H H3]. apply andb_prop in H as [H1 H2].
  repeat split; [exact H1 | by apply Qle_bool_iff | by apply Qle_bool_iff].
Qed.

(** C7.  [GetMaxFOVs] returns four components: the values parsed from
    [fov_iobt] when exactly four tokens parse, the whole default
    otherwise, each converted by [value * M_PI / 180].  With no property
    set these are 43.7, 47.8, 54.2 and 54.2 degrees in radians (to within
    1e-7). *)
Theorem GetMaxFOVs_spec (props : properties) :
  let parsed := parsed_values (text_of props kFovIOBT) in
  length (GetMaxFOVs props) = 4 /\
  GetMaxFOVs props =
    map to_radians
      (if decide (length parsed = 4) then parsed else default_fovs) /\
  GetMaxFOVs ∅ =
    map to_radians
      [flit 437 (-1); flit 478 (-1); flit 542 (-1); flit 542 (-1)] /\
  Forall2 (radians_within (1 # 10000000))
    [437 # 10; 478 # 10; 542 # 10; 542 # 10]%Q (GetMaxFOVs ∅).
Proof.
  intros parsed. split; [apply GetMaxFOVs_length|].
  split; [apply GetMaxFOVs_cases|].
  split; [reflexivity|].
  change (GetMaxFOVs ∅) with (map to_radians default_fovs).
  unfold default_fovs. cbn [map].
  repeat (apply Forall2_cons; split;
          [apply radians_within_check; vm_compute; reflexivity|]).
  apply Forall2_nil. done.
Qed.

(* ===================================================================== *)
(** ** Display metrics *)
(* ===================================================================== *)

(** C9.  For a resolution (w, h) with both components nonzero,
    [CreateDisplayMetrics] returns the resolution, the physical size
    divided componentwise by it, a border of 0.004 m, a frame period of
    1000/60 ms and the portrait orientation.  For 1000 x 1000 pixels and
    the default physical size the meters per pixel are
    {7.42177e-5, 1.31943e-4}. *)
Theorem CreateDisplayMetrics_spec (props : properties) (w h : Z) :
  w <> 0%Z -> h <> 0%Z ->
  (exists size,
     GetDisplaySize props = Some size /\
     CreateDisplayMetrics props (w, h) =
     Some {| size_in_pixels := (w, h);
             meters_per_pixel := (fdiv (fst size) (int_to_float w),
                                  fdiv (snd size) (int_to_float h));
             border_size := flit 4 (-3);
             frame_duration := fdiv (flit 1000 0) (flit 60 0);
             orientation := kPortrait |}) /\
  (meters_per_pixel <$> CreateDisplayMetrics ∅ (1000, 1000)%Z) =
    Some (flit 742177 (-10), flit 131943 (-9)).
Proof.
  intros _ _. split.
  - exists (flit 742177 (-7), flit 131943 (-6)).
    split; [apply GetDisplaySize_default|].
    unfold CreateDisplayMetrics. by rewrite GetDisplaySize_default.
  - vm_compute. reflexivity.
Qed.

Lemma CreateDisplayMetrics_spec_witness :
  (1000 <> 0)%Z /\ (1000 <> 0)%Z /\
  (meters_per_pixel <$> CreateDisplayMetrics ∅ (1000, 1000)%Z) =
    Some (flit 742177 (-10), flit 131943 (-9)).
Proof.
  split; [lia|]. split; [lia|].
  apply (CreateDisplayMetrics_spec ∅ 1000 1000); lia.
Defined.

(* ===================================================================== *)
(** ** Head-mount metrics *)
(* ===================================================================== *)

Section HeadMount.

Implicit Types (props : properties) (h : heap) (l_fov r_fov : FieldOfView).

Lemma GetProperty_float_parsed props name default_value :
  GetProperty_float props name default_value =
  default default_value (parse_token (text_of props name)).
Proof.
  unfold GetProperty_float, parse_token, text_of.
  by destruct (StringToFloat _) as [[|] x].
Qed.

Lemma CreateHeadMountMetrics_run props h :
  exists l_fov r_fov,
    CreateHeadMountMetrics props h =
    CreateHeadMountMetrics_fov props l_fov r_fov h.
Proof.
  destruct (eye_fovs_run props h) as (f0 & f1 & f2 & f3 & _ & Hrun).
  unfold CreateHeadMountMetrics, bind. rewrite Hrun. cbn [fst snd].
  by eexists _, _.
Qed.

Lemma CreateUndistortedHeadMountMetrics_run props h :
  exists l_fov r_fov,
    CreateUndistortedHeadMountMetrics props h =
    CreateUndistortedHeadMountMetrics_fov props l_fov r_fov h.
Proof.
  destruct (eye_fovs_run props h) as (f0 & f1 & f2 & f3 & _ & Hrun).
  unfold CreateUndistortedHeadMountMetrics, bind. rewrite Hrun.
  cbn [fst snd]. by eexists _, _.
Qed.

Lemma undistorted_fov_shares props l_fov r_fov h :
  shares_one_identity h
    (CreateUndistortedHeadMountMetrics_fov props l_fov r_fov h).
Proof.
  rewrite CreateUndistortedHeadMountMetrics_fov_run.
  eexists _, _. split; [reflexivity|]. cbn.
  repeat split.
  - apply not_elem_of_dom, is_fresh.
  - apply lookup_insert_eq.
Qed.

Lemma standard_fov_three props l_fov r_fov h :
  has_three_polynomials h (CreateHeadMountMetrics_fov props l_fov r_fov h).
Proof.
  destruct (CreateHeadMountMetrics_fov_run props l_fov r_fov h)
    as (o_r & o_g & o_b & _ & Hrun).
  cbv zeta in Hrun. rewrite Hrun.
  match type of Hrun with
  | _ = Some (metrics_with _ _ _ _ _ _,
              <[_ := ?c]> (<[_ := ?b]> (<[_ := ?a]> _))) =>
      destruct (three_allocations h a b c)
        as ((Hab & Hbc & Hac) & (Ha & Hb & Hc) & (Ga & Gb & Gc))
  end.
  eexists _, _. split; [reflexivity|]. cbn.
  split; [exact Hab|]. split; [exact Hbc|]. split; [exact Hac|].
  split; [by repeat split|].
  split; [|split].
  - eexists _, _. exact Ga.
  - eexists _, _. exact Gb.
  - eexists _, _. exact Gc.
Qed.

(** C6.  Both overloads of [CreateUndistortedHeadMountMetrics] give all
    three channels the address of one and the same new
    [IdentityDistortion]; both overloads of [CreateHeadMountMetrics]
    give them three pairwise different new [PolynomialRadialDistortion]
    objects. *)
Theorem distortion_instances props l_fov r_fov h :
  shares_one_identity h
    (CreateUndistortedHeadMountMetrics_fov props l_fov r_fov h) /\
  shares_one_identity h (CreateUndistortedHeadMountMetrics props h) /\
  has_three_polynomials h
    (CreateHeadMountMetrics_fov props l_fov r_fov h) /\
  has_three_polynomials h (CreateHeadMountMetrics props h).
Proof.
  split; [apply undistorted_fov_shares|].
  split.
  { destruct (CreateUndistortedHeadMountMetrics_run props h)
      as (l & r & ->). apply undistorted_fov_shares. }
  split; [apply standard_fov_three|].
  destruct (CreateHeadMountMetrics_run props h) as (l & r & ->).
  apply standard_fov_three.
Qed.

Lemma standard_fov_offset props l_fov r_fov h :
  stores_offset
    (fdiv (fsub (GetInterLensDistance props) (GetDisplayGap props))
          (flit 2 0))
    (CreateHeadMountMetrics_fov props l_fov r_fov h).
Proof.
  destruct (CreateHeadMountMetrics_fov_run props l_fov r_fov h)
    as (o_r & o_g & o_b & _ & Hrun).
  cbv zeta in Hrun. rewrite Hrun. by eexists _, _.
Qed.

Lemma undistorted_fov_offset props l_fov r_fov h :
  stores_offset
    (fdiv (fsub (GetInterLensDistance props) (GetDisplayGap props))
          (flit 2 0))
    (CreateUndistortedHeadMountMetrics_fov props l_fov r_fov h).
Proof.
  rewrite CreateUndistortedHeadMountMetrics_fov_run. by eexists _, _.
Qed.

(** C8.  When the text of [lens_distance] parses to D and the text of
    [display_gap] parses to G, every head-mount factory stores
    (D - G) / 2 as the tray-to-lens offset. *)
Theorem tray_to_lens_offset props (D G : float) l_fov r_fov h :
  parse_token (text_of props kLensDistance) = Some D ->
  parse_token (text_of props kDisplayGap) = Some G ->
  let expected := fdiv (fsub D G) (flit 2 0) in
  stores_offset expected (CreateHeadMountMetrics_fov props l_fov r_fov h) /\
  stores_offset expected (CreateHeadMountMetrics props h) /\
  stores_offset expected
    (CreateUndistortedHeadMountMetrics_fov props l_fov r_fov h) /\
  stores_offset expected (CreateUndistortedHeadMountMetrics props h).
Proof.
  intros HD HG expected.
  assert (expected =
          fdiv (fsub (GetInterLensDistance props) (GetDisplayGap props))
               (flit 2 0)) as ->.
  { unfold expected, GetInterLensDistance, GetDisplayGap.
    rewrite !GetProperty_float_parsed, HD, HG. reflexivity. }
  split; [apply standard_fov_offset|].
  split.
  { destruct (CreateHeadMountMetrics_run props h) as (l & r & ->).
    apply standard_fov_offset. }
  split; [apply undistorted_fov_offset|].
  destruct (CreateUndistortedHeadMountMetrics_run props h) as (l & r & ->).
  apply undistorted_fov_offset.
Qed.

End HeadMount.

Lemma tray_to_lens_offset_witness :
  let props : properties :=
    <[kLensDistance := "0.064"]> (<[kDisplayGap := "0.01"]> ∅) in
  stores_offset (fdiv (fsub (flit 64 (-3)) (flit 1 (-2))) (flit 2 0))
    (CreateHeadMountMetrics props ∅) /\
  stores_offset (fdiv (fsub (flit 64 (-3)) (flit 1 (-2))) (flit 2 0))
    (CreateUndistortedHeadMountMetrics props ∅).
Proof.
  intros props.
  assert (parse_token (text_of props kLensDistance) = Some (flit 64 (-3)))
    as HD by (vm_compute; reflexivity).
  assert (parse_token (text_of props kDisplayGap) = Some (flit 1 (-2)))
    as HG by (vm_compute; reflexivity).
  pose (fov := {| fov_1 := flit 0 0; fov_2 := flit 0 0;
                  fov_3 := flit 0 0; fov_4 := flit 0 0 |}).
  destruct (tray_to_lens_offset props _ _ fov fov ∅ HD HG)
    as (_ & H1 & _ & H2).
  split; [exact H1 | exact H2].
Defined.

(* ===================================================================== *)
(** ** Malformed and absent values *)
(* ===================================================================== *)

Section Malformed.

Implicit Types (props p q : properties) (h : heap).

Lemma text_of_insert props key value name :
  text_of (<[key := value]> props) name =
  if decide (key = name) then value else text_of props name.
Proof.
  unfold text_of, property_get. rewrite lookup_insert.
  destruct (decide (key = name)) as [->|Hne]; [|done].
  destruct (String.eqb value EmptyString) eqn:E; [|done].
  by apply String.eqb_eq in E.
Qed.

Lemma text_of_delete props key name :
  text_of (delete key props) name =
  if decide (key = name) then EmptyString else text_of props name.
Proof.
  unfold text_of, property_get. rewrite lookup_delete.
  by destruct (decide (key = name)).
Qed.

Lemma malformed_same_as_absent props key value :
  fully_malformed value ->
  same_readings (<[key := value]> props) (delete key props).
Proof.
  intros [Hs Hv] name. rewrite text_of_insert, text_of_delete.
  destruct (decide (key = name)); [|done].
  rewrite Hs, Hv. done.
Qed.

Lemma malformed_same_as_empty props key value :
  fully_malformed value ->
  same_readings (<[key := value]> props) (<[key := EmptyString]> props).
Proof.
  intros [Hs Hv] name. rewrite !text_of_insert.
  destruct (decide (key = name)); [|done].
  rewrite Hs, Hv. done.
Qed.

Lemma same_readings_float p q name d :
  same_readings p q -> GetProperty_float p name d = GetProperty_float q name d.
Proof.
  intros H. rewrite !GetProperty_float_parsed. by destruct (H name) as [-> _].
Qed.

Lemma same_readings_vector p q name d :
  same_readings p q ->
  GetProperty_vector p name d = GetProperty_vector q name d.
Proof.
  intros H. rewrite !GetProperty_vector_parsed. by destruct (H name) as [_ ->].
Qed.

Lemma same_readings_factories p q : same_readings p q -> same_factories p q.
Proof.
  intros H.
  assert (GetInterLensDistance p = GetInterLensDistance q) as E1
    by apply (same_readings_float _ _ _ _ H).
  assert (GetDisplayGap p = GetDisplayGap q) as E2
    by apply (same_readings_float _ _ _ _ H).
  assert (GetVEyeToDisplay p = GetVEyeToDisplay q) as E3
    by apply (same_readings_float _ _ _ _ H).
  assert (GetMaxFOVs p = GetMaxFOVs q) as E4.
  { unfold GetMaxFOVs. by rewrite (same_readings_vector p q _ _ H). }
  assert (checked_offsets p = checked_offsets q) as E5.
  { unfold checked_offsets. by rewrite (same_readings_vector p q _ _ H). }
  assert (forall l_fov r_fov h,
             CreateHeadMountMetrics_fov p l_fov r_fov h =
             CreateHeadMountMetrics_fov q l_fov r_fov h) as F1.
  { intros. unfold CreateHeadMountMetrics_fov.
    rewrite E1, E2, E3, E5.
    by rewrite !(same_readings_vector p q _ _ H). }
  assert (forall l_fov r_fov h,
             CreateUndistortedHeadMountMetrics_fov p l_fov r_fov h =
             CreateUndistortedHeadMountMetrics_fov q l_fov r_fov h) as F2.
  { intros. unfold CreateUndistortedHeadMountMetrics_fov.
    by rewrite E1, E2, E3. }
  repeat split.
  - intros. unfold CreateDisplayMetrics.
    by rewrite !GetDisplaySize_default.
  - exact F1.
  - intros. unfold CreateHeadMountMetrics, bind. rewrite E4.
    destruct (eye_fovs (GetMaxFOVs q) h) as [[lr h']|]; [apply F1|done].
  - exact F2.
  - intros. unfold CreateUndistortedHeadMountMetrics, bind. rewrite E4.
    destruct (eye_fovs (GetMaxFOVs q) h) as [[lr h']|]; [apply F2|done].
Qed.

Lemma factories_total p : factories_succeed p.
Proof.
  repeat split.
  - intros. unfold CreateDisplayMetrics. rewrite GetDisplaySize_default. done.
  - intros.
    destruct (CreateHeadMountMetrics_fov_run p l_fov r_fov h)
      as (? & ? & ? & _ & Hrun). cbv zeta in Hrun. by rewrite Hrun.
  - intros. destruct (CreateHeadMountMetrics_run p h) as (l & r & ->).
    destruct (CreateHeadMountMetrics_fov_run p l r h)
      as (? & ? & ? & _ & Hrun). cbv zeta in Hrun. by rewrite Hrun.
  - intros. by rewrite CreateUndistortedHeadMountMetrics_fov_run.
  - intros.
    destruct (CreateUndistortedHeadMountMetrics_run p h) as (l & r & ->).
    by rewrite CreateUndistortedHeadMountMetrics_fov_run.
Qed.

(** C10.  No factory fails on any store.  A value of which neither the
    whole text nor any token parses is read, under every key, as the
    default the reader was given, and every factory returns with it
    exactly what it returns when the key is absent or empty. *)
Theorem malformed_is_absent props (key value : string) :
  fully_malformed value ->
  let bad := <[key := value]> props in
  factories_succeed bad /\
  (forall d, GetProperty_float bad key d = d) /\
  (forall d, GetProperty_vector bad key d = d) /\
  same_factories bad (delete key props) /\
  same_factories bad (<[key := EmptyString]> props).
Proof.
  intros Hbad bad. split; [apply factories_total|].
  split; [|split; [|split]].
  - intros d. rewrite GetProperty_float_parsed. unfold bad.
    rewrite text_of_insert. destruct (decide (key = key)); [|done].
    by destruct Hbad as [-> _].
  - intros d. rewrite GetProperty_vector_parsed. unfold bad.
    rewrite text_of_insert. destruct (decide (key = key)); [|done].
    by destruct Hbad as [_ ->].
  - by apply same_readings_factories, malformed_same_as_absent.
  - by apply same_readings_factories, malformed_same_as_empty.
Qed.

End Malformed.

Lemma malformed_is_absent_witness :
  fully_malformed "abc,,x.y" /\
  same_factories (<[kLensDistance := "abc,,x.y"]> ∅) (delete kLensDistance ∅).
Proof.
  assert (fully_malformed "abc,,x.y") as H by (split; vm_compute; reflexivity).
  split; [exact H|].
  destruct (malformed_is_absent ∅ kLensDistance "abc,,x.y" H)
    as (_ & _ & _ & Hsame & _).
  exact Hsame.
Defined.

(* ===================================================================== *)
(** ** Arity of the configured vectors *)
(* ===================================================================== *)

(** C4, as the specification states it, fails for the polynomial
    coefficients: with [r_poly] set to "1,abc,2" the middle token does not
    parse, and the red channel is built from the two values that do,
    a vector that has neither the seven components of the default nor is
    the default. *)
Lemma r_poly_partially_applied :
  let props : properties := <[kRPolynomial := "1,abc,2"]> ∅ in
  split_on "," (text_of props kRPolynomial) = ["1"; "abc"; "2"] /\
  parse_token "abc" = None /\
  length default_r = 7 /\
  GetProperty_vector props kRPolynomial default_r = [flit 1 0; flit 2 0] /\
  GetProperty_vector props kRPolynomial default_r <> default_r /\
  length (GetProperty_vector props kRPolynomial default_r) <> 7 /\
  fst <$> (fst <$> channels (CreateHeadMountMetrics props ∅)) =
    Some (PolynomialRadialDistortion (flit 20971645238 (-11))
            [flit 1 0; flit 2 0]).
Proof.
  vm_compute. repeat split; try reflexivity; discriminate.
Qed.

(** C4, amended.  The offsets are the values parsed from the text when
    exactly three tokens parse and the whole default otherwise; the field
    of view is the four parsed values when exactly four tokens parse and
    the whole default otherwise.  The screen size is the whole default
    whenever the number of parsed values is not two, and the two parsed
    values or the whole default when it is.  A coefficient vector has no
    arity check: it is the list of all the values parsed from its text,
    of any length, when at least one token parses, and the whole default
    exactly when none does.  The standard factory builds the three
    channels from exactly these vectors. *)
Theorem vectors_from_text_or_default (props : properties) :
  let parsed name := parsed_values (text_of props name) in
  (length (checked_offsets props) = 3 /\
   checked_offsets props =
     if decide (length (parsed kRGBPolynomialOffset) = 3)
     then parsed kRGBPolynomialOffset else default_offsets) /\
  (length (GetMaxFOVs props) = 4 /\
   GetMaxFOVs props =
     map to_radians (if decide (length (parsed kFovIOBT) = 4)
                     then parsed kFovIOBT else default_fovs)) /\
  ((length (parsed kScreenSize) <> 2 ->
    GetDisplaySize props = Some (flit 742177 (-7), flit 131943 (-6))) /\
   ((exists x y, parsed kScreenSize = [x; y] /\
                 GetDisplaySize props = Some (x, y)) \/
    GetDisplaySize props = Some (flit 742177 (-7), flit 131943 (-6)))) /\
  (forall name default_values,
      GetProperty_vector props name default_values =
      if decide (parsed name = []) then default_values else parsed name) /\
  (forall l_fov r_fov h,
      exists o_r o_g o_b,
        checked_offsets props = [o_r; o_g; o_b] /\
        channels (CreateHeadMountMetrics_fov props l_fov r_fov h) =
        Some (PolynomialRadialDistortion o_r
                (if decide (parsed kRPolynomial = []) then default_r
                 else parsed kRPolynomial),
              PolynomialRadialDistortion o_g
                (if decide (parsed kGPolynomial = []) then default_g
                 else parsed kGPolynomial),
              PolynomialRadialDistortion o_b
                (if decide (parsed kBPolynomial = []) then default_b
                 else parsed kBPolynomial))).
Proof.
  intros parsed.
  assert (forall name default_values,
             GetProperty_vector props name default_values =
             if decide (parsed name = []) then default_values
             else parsed name) as Hvec.
  { intros name default_values. rewrite GetProperty_vector_parsed.
    unfold parsed. by destruct (parsed_values _). }
  split; [|split; [|split; [|split]]].
  - split; [apply checked_offsets_length|apply checked_offsets_cases].
  - split; [apply GetMaxFOVs_length|apply GetMaxFOVs_cases].
  - split; [intros _; apply GetDisplaySize_default|].
    right. apply GetDisplaySize_default.
  - exact Hvec.
  - intros l_fov r_fov h.
    destruct (CreateHeadMountMetrics_fov_run props l_fov r_fov h)
      as (o_r & o_g & o_b & Hoff & Hrun).
    exists o_r, o_g, o_b. split; [exact Hoff|].
    cbv zeta in Hrun. rewrite Hrun.
    match type of Hrun with
    | _ = Some (metrics_with _ _ _ _ _ _,
                <[_ := ?c]> (<[_ := ?b]> (<[_ := ?a]> _))) =>
        destruct (three_allocations h a b c) as (_ & _ & (Ga & Gb & Gc))
    end.
    cbv zeta in Ga, Gb, Gc. unfold channels. cbn [red_distortion
      green_distortion blue_distortion metrics_with].
    rewrite Ga, Gb, Gc. by rewrite !Hvec.
Qed.

(* ===================================================================== *)
(** ** The scalar reader *)
(* ===================================================================== *)

(** C3, as the specification states it, fails: of the text "1.5abc"
    [strtof] converts the three characters "1.5" and leaves "abc";
    [StringToFloat] reports success all the same, and the scalar reader
    returns 1.5 instead of the default it was given. *)
Lemma trailing_data_accepted :
  let props : properties := <[kLensDistance := "1.5abc"]> ∅ in
  text_of props kLensDistance = "1.5abc" /\
  Strtof.strtof "1.5abc" = (flit 15 (-1), 3) /\
  String.length "1.5abc" = 6 /\
  StringToFloat "1.5abc" = (true, flit 15 (-1)) /\
  GetProperty_float props kLensDistance (flit 64 (-3)) = flit 15 (-1) /\
  GetProperty_float props kLensDistance (flit 64 (-3)) <> flit 64 (-3).
Proof.
  vm_compute. repeat split; try reflexivity. discriminate.
Qed.

(** C3, amended.  The scalar reader succeeds exactly when [strtof]
    converts at least one character, and then returns the value of the
    converted prefix; it returns the default only when nothing is
    converted, as for the empty text.  What follows the number is
    ignored: a text that [strtof] converts whole gives the same value
    when anything is appended that starts with a character continuing no
    number. *)
Theorem GetProperty_float_prefix (props : properties) (name : string)
  (default_value : float) :
  let text := text_of props name in
  GetProperty_float props name default_value =
    (if (snd (Strtof.strtof text) =? 0)%nat then default_value
     else fst (Strtof.strtof text)) /\
  (text = EmptyString ->
   GetProperty_float props name default_value = default_value) /\
  (forall number rest value,
      text = number +:+ rest ->
      number <> EmptyString ->
      Strtof.strtof number = (value, String.length number) ->
      ends_number rest = true ->
      GetProperty_float props name default_value = value).
Proof.
  intros text.
  assert (GetProperty_float props name default_value =
          (if (snd (Strtof.strtof text) =? 0)%nat then default_value
           else fst (Strtof.strtof text))) as Hread.
  { unfold GetProperty_float, StringToFloat. fold (text_of props name).
    fold text. destruct (Strtof.strtof text) as [v n]. cbn [fst snd].
    rewrite orb_false_r. by destruct (n =? 0)%nat. }
  split; [exact Hread|]. split.
  - intros E. rewrite Hread, E. reflexivity.
  - intros number rest value E Hne Hnum Hrest. rewrite Hread, E.
    rewrite (StrtofFacts.strtof_app number rest value Hne Hrest Hnum).
    cbn [fst snd]. destruct number; [done|reflexivity].
Qed.

Lemma GetProperty_float_prefix_witness :
  let props : properties := <[kLensDistance := "0.064 m"]> ∅ in
  GetProperty_float props kLensDistance (flit 0 0) = flit 64 (-3).
Proof.
  intros props.
  destruct (GetProperty_float_prefix props kLensDistance (flit 0 0))
    as (_ & _ & H).
  apply (H "0.064" " m").
  - vm_compute; reflexivity.
  - discriminate.
  - vm_compute; reflexivity.
  - vm_compute; reflexivity.
Defined.

(* ===================================================================== *)
(** ** Splitting a text *)
(* ===================================================================== *)

Section Splitting.

Implicit Types (s t : string) (d : ascii).

Lemma lines_empty d s : lines d s = [] -> s = EmptyString.
Proof.
  destruct s as [|c rest]; [done|]. simpl.
  destruct (Ascii.eqb c d); [done|]. by destruct (lines d rest).
Qed.

Lemma join_push d c piece pieces :
  join d (String c piece :: pieces) = String c (join d (piece :: pieces)).
Proof. by destruct pieces. Qed.

Lemma split_on_nonempty d s : split_on d s <> [].
Proof.
  destruct s as [|c rest]; simpl; [done|].
  destruct (Ascii.eqb c d); [done|]. by destruct (split_on d rest).
Qed.

Lemma split_on_append d s t :
  split_on d (s +:+ String d t) = split_on d s ++ split_on d t.
Proof.
  induction s as [|c rest IH].
  - change (EmptyString +:+ String d t) with (String d t).
    simpl. by rewrite Ascii.eqb_refl.
  - change (String c rest +:+ String d t)
      with (String c (rest +:+ String d t)).
    simpl. rewrite IH. destruct (Ascii.eqb c d); [done|].
    pose proof (split_on_nonempty d rest).
    by destruct (split_on d rest).
Qed.

Lemma split_on_whole d s : has_char d s = false -> split_on d s = [s].
Proof.
  induction s as [|c rest IH]; simpl; [done|].
  intros H. apply orb_false_iff in H as [Hc Hr].
  by rewrite Hc, (IH Hr).
Qed.

(** X1.  Joining the pieces [SplitString] returns with the delimiter
    gives the text back, except for a delimiter at its very end, which
    is lost. *)
Theorem SplitString_join (s : string) (d : ascii) :
  join d (SplitString s d) = drop_final d s.
Proof.
  rewrite SplitString_lines.
  induction s as [|c rest IH]; [done|].
  cbn [lines drop_final]. destruct (Ascii.eqb c d) eqn:E.
  - destruct rest as [|c' rest']; [done|].
    cbn [join]. destruct (lines d (String c' rest')) as [|p ps] eqn:El.
    { by apply lines_empty in El. }
    rewrite IH. apply Ascii.eqb_eq in E as ->. reflexivity.
  - destruct rest as [|c' rest']; [done|].
    destruct (lines d (String c' rest')) as [|p ps] eqn:El.
    { by apply lines_empty in El. }
    rewrite join_push. by rewrite IH.
Qed.

(** X2.  No piece [SplitString] returns contains the delimiter, and
    there are at most as many pieces as the text has characters. *)
Theorem SplitString_pieces (s : string) (d : ascii) :
  Forall (fun piece => has_char d piece = false) (SplitString s d) /\
  length (SplitString s d) <= String.length s.
Proof.
  rewrite SplitString_lines.
  induction s as [|c rest [IH1 IH2]]; [by split|].
  cbn [lines String.length]. destruct (Ascii.eqb c d) eqn:E.
  - split; [by constructor|]. cbn [length]. lia.
  - destruct (lines d rest) as [|p ps].
    + split; [|cbn [length]; lia].
      constructor; [|done]. simpl. by rewrite E.
    + split; [|cbn [length] in *; lia].
      inversion IH1 as [|? ? Hp Hps]; subst.
      constructor; [|done]. simpl. by rewrite E, Hp.
Qed.

(** X3.  The pieces [SplitString] returns are the pieces between the
    delimiters of the text, without the empty piece that ends an empty
    text or follows a final delimiter. *)
Theorem SplitString_split_on (s : string) (d : ascii) :
  split_on d s =
  SplitString s d ++ (if ends_open d s then [] else [EmptyString]).
Proof.
  rewrite SplitString_lines.
  induction s as [|c rest IH]; [done|].
  cbn [split_on lines ends_open]. rewrite IH.
  destruct (Ascii.eqb c d) eqn:E.
  - destruct rest as [|c' rest']; [done|]. reflexivity.
  - destruct rest as [|c' rest']; [done|].
    destruct (lines d (String c' rest')) as [|p ps] eqn:El.
    { by apply lines_empty in El. }
    reflexivity.
Qed.

(** X4.  Reading two texts joined by a comma gives the values of the
    first followed by the values of the second. *)
Theorem parse_values_append (s t : string) :
  parse_values (SplitString (s +:+ String "," t) ",") =
  parse_values (SplitString s ",") ++ parse_values (SplitString t ",").
Proof.
  rewrite !parse_values_SplitString. unfold parsed_values.
  by rewrite split_on_append, omap_app.
Qed.

End Splitting.

(* ===================================================================== *)
(** ** More facts about [strtof] *)
(* ===================================================================== *)

Module StrtofBounds.
Import Strtof StrtofFacts.
Local Open Scope nat_scope.

Lemma mantissa_positive dv base s m nf n r :
  mantissa dv base s = Some (m, nf, n, r) -> 0 < n.
Proof.
  unfold mantissa.
  destruct (scan_digits dv base 0 s) as [[vi ni] r1].
  destruct r1 as [|c r2].
  - destruct (ni =? 0) eqn:E; [discriminate|].
    intros [= <- <- <- <-]. apply Nat.eqb_neq in E. lia.
  - destruct (Ascii.eqb c ".").
    + destruct (scan_digits dv base vi r2) as [[vf nf'] r3].
      destruct (ni + nf' =? 0); [discriminate|].
      intros [= <- <- <- <-]. lia.
    + destruct (ni =? 0) eqn:E; [discriminate|].
      intros [= <- <- <- <-]. apply Nat.eqb_neq in E. lia.
Qed.

Lemma exponent_bound mark s e ne :
  exponent mark s = (e, ne) -> ne <= String.length s.
Proof.
  unfold exponent. destruct s as [|c r]; [intros [= <- <-]; simpl; lia|].
  destruct (Ascii.eqb (tolower c) mark);
    [|intros [= <- <-]; simpl; lia].
  destruct (opt_sign r) as [[neg ns] r1] eqn:Es.
  destruct (scan_digits digit_val 10 0 r1) as [[v n] r'] eqn:Ed.
  pose proof (opt_sign_length _ _ _ _ Es).
  pose proof (scan_digits_length _ _ _ _ _ _ _ Ed).
  destruct (n =? 0); intros [= <- <-]; simpl; lia.
Qed.

Lemma decimal_bound s mk n :
  decimal s = Some (mk, n) -> 0 < n <= String.length s.
Proof.
  unfold decimal.
  destruct (mantissa digit_val 10 s) as [[[[m nf] n1] r]|] eqn:Em;
    [|discriminate].
  destruct (exponent "e" r) as [e ne] eqn:Ee. intros [= <- <-].
  pose proof (mantissa_positive _ _ _ _ _ _ _ Em).
  pose proof (mantissa_length _ _ _ _ _ _ _ Em).
  pose proof (exponent_bound _ _ _ _ Ee). lia.
Qed.

Lemma hexadecimal_bound s mk n :
  hexadecimal s = Some (mk, n) -> 0 < n <= String.length s.
Proof.
  destruct s as [|c [|x r]]; try discriminate. unfold hexadecimal.
  destruct (Ascii.eqb c "0" && Ascii.eqb (tolower x) "x"); [|discriminate].
  destruct (mantissa xdigit_val 16 r) as [[[[m nf] n1] r']|] eqn:Em;
    [|discriminate].
  destruct (exponent "p" r') as [e ne] eqn:Ee. intros [= <- <-].
  pose proof (mantissa_length _ _ _ _ _ _ _ Em).
  pose proof (exponent_bound _ _ _ _ Ee). cbn [String.length]. lia.
Qed.

Lemma infinity_bound s mk n :
  infinity s = Some (mk, n) -> 0 < n <= String.length s.
Proof.
  unfold infinity.
  destruct (prefix_ci "inf" s) as [r|] eqn:E1; [|discriminate].
  pose proof (prefix_ci_length _ _ _ E1) as L1. cbn [String.length] in L1.
  destruct (prefix_ci "inity" r) as [r'|] eqn:E2.
  - pose proof (prefix_ci_length _ _ _ E2) as L2.
    cbn [String.length] in L2. intros [= <- <-]. lia.
  - intros [= <- <-]. lia.
Qed.

Lemma nan_bound s mk n :
  nan s = Some (mk, n) -> 0 < n <= String.length s.
Proof.
  unfold nan.
  destruct (prefix_ci "nan" s) as [r|] eqn:E1; [|discriminate].
  pose proof (prefix_ci_length _ _ _ E1) as L1. cbn [String.length] in L1.
  destruct r as [|c r0]; [intros [= <- <-]; lia|].
  cbn [String.length] in L1.
  destruct (Ascii.eqb c "("); [|intros [= <- <-]; lia].
  destruct (scan_nchars r0) as [k r'] eqn:Ek.
  pose proof (scan_nchars_length _ _ _ Ek) as L2.
  destruct r' as [|c' r'']; [intros [= <- <-]; lia|].
  cbn [String.length] in L2.
  destruct (Ascii.eqb c' ")"); intros [= <- <-]; lia.
Qed.

Lemma subject_bound s mk n :
  subject s = Some (mk, n) -> 0 < n <= String.length s.
Proof.
  unfold subject.
  destruct (hexadecimal s) as [[mk' n']|] eqn:Eh.
  { intros [= <- <-]. by apply hexadecimal_bound in Eh. }
  destruct (decimal s) as [[mk' n']|] eqn:Ed.
  { intros [= <- <-]. by apply decimal_bound in Ed. }
  destruct (infinity s) as [[mk' n']|] eqn:Ei.
  { intros [= <- <-]. by apply infinity_bound in Ei. }
  apply nan_bound.
Qed.

(** Rounding does not depend on the sign. *)
Lemma binary_round_aux_opp prec emax sx mx ex lx :
  binary_round_aux prec emax (negb sx) mx ex lx =
  SFopp (binary_round_aux prec emax sx mx ex lx).
Proof.
  unfold binary_round_aux.
  destruct (shr_fexp prec emax mx ex lx) as [mrs' e'].
  destruct (shr_fexp prec emax _ e' loc_Exact) as [mrs'' e''].
  destruct (shr_m mrs''); [done| |done].
  by destruct (Z.leb e'' (Z.sub emax prec)).
Qed.

Lemma binary_round_opp prec emax sx mx ex :
  binary_round prec emax (negb sx) mx ex =
  SFopp (binary_round prec emax sx mx ex).
Proof.
  unfold binary_round. destruct (shl_align _ _ _) as [mz ez].
  apply binary_round_aux_opp.
Qed.

Lemma round_decimal_opp prec emax s m e :
  IEEE.round_decimal prec emax (negb s) m e =
  SFopp (IEEE.round_decimal prec emax s m e).
Proof.
  unfold IEEE.round_decimal. destruct m as [|p|p]; [done| |done].
  destruct e as [|k|k]; try apply binary_round_opp.
  destruct (SFdiv_core_binary _ _ _ _ _ _) as [[q e'] l].
  apply binary_round_aux_opp.
Qed.

Lemma round_binary_opp prec emax s m e :
  IEEE.round_binary prec emax (negb s) m e =
  SFopp (IEEE.round_binary prec emax s m e).
Proof.
  unfold IEEE.round_binary. destruct m as [|p|p]; [done| |done].
  apply binary_round_opp.
Qed.

Lemma subject_sign s mk n b :
  subject s = Some (mk, n) -> mk (negb b) = SFopp (mk b).
Proof.
  unfold subject.
  destruct (hexadecimal s) as [[mk' n']|] eqn:Eh.
  { intros [= <- <-]. revert Eh.
    destruct s as [|c [|x r]]; try discriminate. unfold hexadecimal.
    destruct (_ && _); [|discriminate].
    destruct (mantissa xdigit_val 16 r) as [[[[m nf] n1] r']|];
      [|discriminate].
    destruct (exponent "p" r') as [e ne]. intros [= <- <-].
    apply round_binary_opp. }
  destruct (decimal s) as [[mk' n']|] eqn:Ed.
  { intros [= <- <-]. revert Ed. unfold decimal.
    destruct (mantissa digit_val 10 s) as [[[[m nf] n1] r]|];
      [|discriminate].
    destruct (exponent "e" r) as [e ne]. intros [= <- <-].
    apply round_decimal_opp. }
  destruct (infinity s) as [[mk' n']|] eqn:Ei.
  { intros [= <- <-]. revert Ei. unfold infinity.
    destruct (prefix_ci "inf" s) as [r|]; [|discriminate].
    by destruct (prefix_ci "inity" r); intros [= <- <-]. }
  unfold nan. destruct (prefix_ci "nan" s) as [r|]; [|discriminate].
  destruct r as [|c r0]; [by intros [= <- <-]|].
  destruct (Ascii.eqb c "("); [|by intros [= <- <-]].
  destruct (scan_nchars r0) as [k r'].
  destruct r' as [|c' r'']; [by intros [= <- <-]|].
  by destruct (Ascii.eqb c' ")"); intros [= <- <-].
Qed.

Lemma nan_head c s :
  Ascii.eqb (tolower c) "n" = false -> nan (String c s) = None.
Proof. intros H. unfold nan. by rewrite (prefix_ci_mismatch _ _ _ _ H). Qed.

Lemma not_a_start c :
  may_start c = false ->
  digit_val c = None /\ Ascii.eqb c "." = false /\ Ascii.eqb c "0" = false /\
  Ascii.eqb (tolower c) "i" = false /\ Ascii.eqb (tolower c) "n" = false.
Proof. each_char c. Qed.

Lemma subject_start c s :
  may_start c = false -> subject (String c s) = None.
Proof.
  intros H. apply not_a_start in H as (Hd & Hp & H0 & Hi & Hn).
  unfold subject.
  by rewrite (hexadecimal_head _ _ H0), (decimal_head _ _ Hd Hp),
    (infinity_head _ _ Hi), (nan_head _ _ Hn).
Qed.

Lemma plain_char c :
  (negb (isspace c) && negb (Ascii.eqb c "-") && negb (Ascii.eqb c "+"))%bool
    = true ->
  isspace c = false /\ Ascii.eqb c "-" = false /\ Ascii.eqb c "+" = false.
Proof.
  intros H. apply andb_prop in H as [H H3]. apply andb_prop in H as [H1 H2].
  by rewrite !negb_true_iff in *.
Qed.

Lemma skip_space_all s : all_space s = true ->
  exists n, skip_space s = (n, EmptyString).
Proof.
  induction s as [|c rest IH]; [by exists 0|].
  cbn [all_space skip_space]. intros H. apply andb_prop in H as [Hc Hr].
  rewrite Hc. destruct (IH Hr) as [n ->]. by exists (S n).
Qed.

End StrtofBounds.

(** X5.  [strtof] never leaves [endptr] beyond the end of the text, and
    when it converts nothing the value it returns is +0. *)
Theorem strtof_within (str : string) :
  snd (Strtof.strtof str) <= String.length str /\
  (snd (Strtof.strtof str) = 0 -> fst (Strtof.strtof str) = S754_zero false).
Proof.
  unfold Strtof.strtof.
  destruct (Strtof.skip_space str) as [nw s1] eqn:Ew.
  destruct (Strtof.opt_sign s1) as [[neg ns] s2] eqn:Es.
  pose proof (StrtofFacts.skip_space_length _ _ _ Ew).
  pose proof (StrtofFacts.opt_sign_length _ _ _ _ Es).
  destruct (Strtof.subject s2) as [[mk n]|] eqn:Eb; cbn [fst snd].
  - apply StrtofBounds.subject_bound in Eb. split; lia.
  - split; [lia|done].
Qed.

(** X6.  White space in front of a text changes neither whether
    [StringToFloat] succeeds nor the value it stores. *)
Theorem StringToFloat_leading_space (c : ascii) (str : string) :
  Strtof.isspace c = true ->
  StringToFloat (String c str) = StringToFloat str.
Proof.
  intros Hc. unfold StringToFloat, Strtof.strtof.
  cbn [Strtof.skip_space]. rewrite Hc.
  destruct (Strtof.skip_space str) as [nw s1].
  destruct (Strtof.opt_sign s1) as [[neg ns] s2].
  destruct (Strtof.subject s2) as [[mk n]|] eqn:Eb; [|done].
  apply StrtofBounds.subject_bound in Eb.
  replace (S nw + ns + n =? 0)%nat with false
    by (symmetry; apply Nat.eqb_neq; lia).
  replace (nw + ns + n =? 0)%nat with false
    by (symmetry; apply Nat.eqb_neq; lia).
  reflexivity.
Qed.

Lemma StringToFloat_leading_space_witness :
  StringToFloat " 0.5" = StringToFloat "0.5".
Proof. apply (StringToFloat_leading_space " " "0.5"). reflexivity. Defined.

(** X7.  A minus sign in front of a text that starts neither with white
    space nor with a sign negates what the text parses to; a plus sign
    changes nothing. *)
Theorem parse_token_sign (str : string) :
  starts_plain str = true ->
  parse_token (String "-" str) = SFopp <$> parse_token str /\
  parse_token (String "+" str) = parse_token str.
Proof.
  intros Hp.
  assert (Strtof.skip_space str = (0, str) /\
          Strtof.opt_sign str = (false, 0, str)) as [Hw Hs].
  { destruct str as [|c r]; [done|]. cbn [starts_plain] in Hp.
    apply StrtofBounds.plain_char in Hp as (H1 & H2 & H3).
    cbn [Strtof.skip_space Strtof.opt_sign]. by rewrite H1, H2, H3. }
  assert (Strtof.strtof (String "-" str) =
          match Strtof.subject str with
          | Some (mk, n) => (mk true, 0 + 1 + n)
          | None => (S754_zero false, 0)
          end) as Hminus by reflexivity.
  assert (Strtof.strtof (String "+" str) =
          match Strtof.subject str with
          | Some (mk, n) => (mk false, 0 + 1 + n)
          | None => (S754_zero false, 0)
          end) as Hplus by reflexivity.
  unfold parse_token, StringToFloat. rewrite Hminus, Hplus.
  unfold Strtof.strtof. rewrite Hw, Hs.
  destruct (Strtof.subject str) as [[mk n]|] eqn:Eb; [|by split].
  pose proof (StrtofBounds.subject_sign _ _ _ false Eb) as Hopp.
  apply StrtofBounds.subject_bound in Eb.
  replace (0 + 1 + n =? 0)%nat with false
    by (symmetry; apply Nat.eqb_neq; lia).
  replace (0 + 0 + n =? 0)%nat with false
    by (symmetry; apply Nat.eqb_neq; lia).
  cbn [orb negb fmap option_fmap option_map]. split; [|done].
  f_equal. exact Hopp.
Qed.

Lemma parse_token_sign_witness :
  parse_token "-0.5" = SFopp <$> parse_token "0.5".
Proof.
  destruct (parse_token_sign "0.5") as [H _]; [reflexivity|exact H].
Defined.

(** X8.  A text parses only if, after white space and one optional
    sign, it starts with a digit, a point, or the letter i or n in
    either case. *)
Theorem parse_token_start (str : string) (value : float) :
  parse_token str = Some value ->
  exists c, significant str = Some c /\ may_start c = true.
Proof.
  unfold parse_token, StringToFloat, Strtof.strtof, significant.
  destruct (Strtof.skip_space str) as [nw s1].
  destruct (Strtof.opt_sign s1) as [[neg ns] s2].
  destruct s2 as [|c r]; [discriminate|].
  destruct (may_start c) eqn:Ec; [by exists c|].
  by rewrite (StrtofBounds.subject_start c r Ec).
Qed.

Lemma parse_token_start_witness :
  exists c, significant " -.5" = Some c /\ may_start c = true.
Proof.
  apply (parse_token_start " -.5" (flit (-5) (-1))).
  vm_compute. reflexivity.
Defined.

(* ===================================================================== *)
(** ** More about the readers *)
(* ===================================================================== *)

Section MoreReaders.

Implicit Types (props : properties) (name : string).

Lemma parse_token_whole str value :
  str <> EmptyString ->
  Strtof.strtof str = (value, String.length str) ->
  parse_token str = Some value.
Proof.
  intros Hne H. unfold parse_token, StringToFloat. rewrite H.
  by destruct str.
Qed.

Lemma space_is_no_comma c :
  Strtof.isspace c = true -> Ascii.eqb c "," = false.
Proof. StrtofFacts.each_char c. Qed.

Lemma all_space_no_comma str :
  all_space str = true -> has_char "," str = false.
Proof.
  induction str as [|c rest IH]; [done|]. cbn [all_space has_char].
  intros H. apply andb_prop in H as [Hc Hr].
  by rewrite (space_is_no_comma c Hc), (IH Hr).
Qed.

Lemma all_space_fails str : all_space str = true -> parse_token str = None.
Proof.
  intros H. destruct (StrtofBounds.skip_space_all str H) as [n Hn].
  unfold parse_token, StringToFloat, Strtof.strtof. by rewrite Hn.
Qed.

(** X9.  For a text without a comma the vector reader returns the one
    value the scalar reader returns, when the text parses, and its
    default otherwise. *)
Theorem GetProperty_single props name (default_value : float)
  (default_values : list float) :
  has_char "," (text_of props name) = false ->
  GetProperty_vector props name default_values =
  if fst (StringToFloat (text_of props name))
  then [GetProperty_float props name default_value]
  else default_values.
Proof.
  intros H. rewrite GetProperty_vector_parsed. unfold parsed_values.
  rewrite (split_on_whole _ _ H). cbn [omap list_omap].
  unfold GetProperty_float, parse_token. fold (text_of props name).
  by destruct (StringToFloat (text_of props name)) as [[|] v].
Qed.

Lemma GetProperty_single_witness :
  GetProperty_vector (<[kFovIOBT := "45"]> ∅) kFovIOBT default_fovs =
  [GetProperty_float (<[kFovIOBT := "45"]> ∅) kFovIOBT (flit 0 0)].
Proof.
  rewrite (GetProperty_single (<[kFovIOBT := "45"]> ∅) kFovIOBT (flit 0 0)
             default_fovs); vm_compute; reflexivity.
Defined.

(** X10.  When the text is a list whose first token is a number
    throughout, the scalar reader returns that number, which is also the
    first component the vector reader returns. *)
Theorem GetProperty_first props name (default_value : float)
  (default_values : list float) (token rest : string) (value : float) :
  text_of props name = token +:+ String "," rest ->
  token <> EmptyString ->
  has_char "," token = false ->
  Strtof.strtof token = (value, String.length token) ->
  GetProperty_float props name default_value = value /\
  GetProperty_vector props name default_values !! 0 = Some value.
Proof.
  intros Htext Hne Hcomma Hnum. split.
  - unfold GetProperty_float, StringToFloat. fold (text_of props name).
    rewrite Htext.
    rewrite (StrtofFacts.strtof_app token (String "," rest) value Hne
               eq_refl Hnum).
    by destruct token.
  - rewrite GetProperty_vector_parsed, Htext. unfold parsed_values.
    rewrite split_on_append, omap_app, (split_on_whole _ _ Hcomma).
    cbn [omap list_omap]. by rewrite (parse_token_whole _ _ Hne Hnum).
Qed.

Lemma GetProperty_first_witness :
  let props : properties := <[kLensDistance := "0.07,0.2"]> ∅ in
  GetProperty_float props kLensDistance (flit 64 (-3)) = flit 7 (-2) /\
  GetProperty_vector props kLensDistance [] !! 0 = Some (flit 7 (-2)).
Proof.
  intros props.
  apply (GetProperty_first props kLensDistance (flit 64 (-3)) []
           "0.07" "0.2" (flit 7 (-2))).
  - vm_compute; reflexivity.
  - discriminate.
  - reflexivity.
  - vm_compute; reflexivity.
Defined.

(** X11.  The vector reader returns an empty vector only when it was
    given an empty default and no token of the text parsed. *)
Theorem GetProperty_vector_empty props name (default_values : list float) :
  GetProperty_vector props name default_values = [] <->
  default_values = [] /\
  parse_values (SplitString (text_of props name) ",") = [].
Proof.
  rewrite parse_values_SplitString, GetProperty_vector_parsed.
  destruct (parsed_values (text_of props name)) as [|v vs].
  - split; [by intros -> | by intros [-> _]].
  - split; [discriminate | intros [_ H]; discriminate H].
Qed.

(** X12.  A property that is unset, empty or made of white space only
    is read as the default by both readers. *)
Theorem blank_reads_default props name (default_value : float)
  (default_values : list float) :
  props !! name = None \/ all_space (text_of props name) = true ->
  GetProperty_float props name default_value = default_value /\
  GetProperty_vector props name default_values = default_values.
Proof.
  intros H.
  assert (all_space (text_of props name) = true) as Hs.
  { destruct H as [H|H]; [|exact H].
    unfold text_of, property_get. by rewrite H. }
  split.
  - rewrite GetProperty_float_parsed. by rewrite (all_space_fails _ Hs).
  - rewrite GetProperty_vector_parsed. unfold parsed_values.
    rewrite (split_on_whole _ _ (all_space_no_comma _ Hs)).
    cbn [omap list_omap]. by rewrite (all_space_fails _ Hs).
Qed.

Lemma blank_reads_default_witness :
  GetProperty_float (<[kDisplayGap := "  "]> ∅) kDisplayGap (flit 1 0)
    = flit 1 0 /\
  GetProperty_float ∅ kDisplayGap (flit 1 0) = flit 1 0.
Proof.
  split.
  - apply (blank_reads_default (<[kDisplayGap := "  "]> ∅) kDisplayGap
             (flit 1 0) []).
    right. vm_compute. reflexivity.
  - apply (blank_reads_default ∅ kDisplayGap (flit 1 0) []).
    left. reflexivity.
Defined.

(** X21.  Setting a property changes what the readers return for that key
    only: under the key they read the new text, under every other key
    what they read before. *)
Theorem readers_after_insert props (key value name : string)
  (default_value : float) (default_values : list float) :
  GetProperty_float (<[key := value]> props) name default_value =
    (if decide (key = name) then default default_value (parse_token value)
     else GetProperty_float props name default_value) /\
  GetProperty_vector (<[key := value]> props) name default_values =
    (if decide (key = name)
     then match parse_values (SplitString value ",") with
          | [] => default_values
          | v :: vs => v :: vs
          end
     else GetProperty_vector props name default_values).
Proof.
  rewrite GetProperty_float_parsed, GetProperty_vector_parsed.
  rewrite text_of_insert, parse_values_SplitString.
  destruct (decide (key = name)); [done|].
  by rewrite GetProperty_float_parsed, GetProperty_vector_parsed.
Qed.

End MoreReaders.

(* ===================================================================== *)
(** ** More about the factories *)
(* ===================================================================== *)

Section MoreFactories.

Implicit Types (props p q : properties) (h : heap)
  (l_fov r_fov : FieldOfView).

(** X13.  The factories read the eight keys of [keys_read] and nothing
    else: two stores with the same texts under these keys give the same
    results, whatever else they hold, the screen size included. *)
Theorem factories_read_keys p q :
  (forall key, key ∈ keys_read -> text_of p key = text_of q key) ->
  same_factories p q.
Proof.
  intros H.
  assert (forall key d, key ∈ keys_read ->
            GetProperty_float p key d = GetProperty_float q key d) as Hf.
  { intros key d Hk. by rewrite !GetProperty_float_parsed, (H key Hk). }
  assert (forall key d, key ∈ keys_read ->
            GetProperty_vector p key d = GetProperty_vector q key d) as Hv.
  { intros key d Hk. by rewrite !GetProperty_vector_parsed, (H key Hk). }
  assert (GetInterLensDistance p = GetInterLensDistance q) as E1
    by (apply Hf; unfold keys_read; set_solver).
  assert (GetDisplayGap p = GetDisplayGap q) as E2
    by (apply Hf; unfold keys_read; set_solver).
  assert (GetVEyeToDisplay p = GetVEyeToDisplay q) as E3
    by (apply Hf; unfold keys_read; set_solver).
  assert (GetMaxFOVs p = GetMaxFOVs q) as E4.
  { unfold GetMaxFOVs. rewrite (Hv kFovIOBT); [done|].
    unfold keys_read; set_solver. }
  assert (checked_offsets p = checked_offsets q) as E5.
  { unfold checked_offsets. rewrite (Hv kRGBPolynomialOffset); [done|].
    unfold keys_read; set_solver. }
  assert (forall l_fov r_fov h,
             CreateHeadMountMetrics_fov p l_fov r_fov h =
             CreateHeadMountMetrics_fov q l_fov r_fov h) as F1.
  { intros. unfold CreateHeadMountMetrics_fov. rewrite E1, E2, E3, E5.
    rewrite (Hv kRPolynomial), (Hv kGPolynomial), (Hv kBPolynomial);
      [done|unfold keys_read; set_solver..]. }
  assert (forall l_fov r_fov h,
             CreateUndistortedHeadMountMetrics_fov p l_fov r_fov h =
             CreateUndistortedHeadMountMetrics_fov q l_fov r_fov h) as F2.
  { intros. unfold CreateUndistortedHeadMountMetrics_fov.
    by rewrite E1, E2, E3. }
  repeat split.
  - intros. unfold CreateDisplayMetrics. by rewrite !GetDisplaySize_default.
  - exact F1.
  - intros. unfold CreateHeadMountMetrics, bind. rewrite E4.
    destruct (eye_fovs (GetMaxFOVs q) h) as [[lr h']|]; [apply F1|done].
  - exact F2.
  - intros. unfold CreateUndistortedHeadMountMetrics, bind. rewrite E4.
    destruct (eye_fovs (GetMaxFOVs q) h) as [[lr h']|]; [apply F2|done].
Qed.

Lemma factories_read_keys_witness :
  same_factories ∅ (<[kScreenSize := "0.05,0.1"]> (<[ "ro.other" := "1" ]> ∅)).
Proof.
  apply factories_read_keys. intros key Hk.
  unfold keys_read in Hk.
  repeat (apply elem_of_cons in Hk as [-> | Hk]; [reflexivity|]).
  by apply elem_of_nil in Hk.
Defined.

Lemma new_extends h (obj : ColorChannelDistortion) :
  let l := fresh (dom h) in
  h ⊆ <[l := obj]> h /\ size (<[l := obj]> h) = S (size h).
Proof.
  intros l.
  assert (h !! l = None) as Hl by apply not_elem_of_dom, is_fresh.
  split; [by apply insert_subseteq|by apply map_size_insert_None].
Qed.

Lemma standard_fov_extends props l_fov r_fov h :
  extends_by 3 h (CreateHeadMountMetrics_fov props l_fov r_fov h).
Proof.
  destruct (CreateHeadMountMetrics_fov_run props l_fov r_fov h)
    as (o_r & o_g & o_b & _ & Hrun).
  cbv zeta in Hrun. rewrite Hrun.
  match type of Hrun with
  | _ = Some (_, <[_ := ?c]> (<[_ := ?b]> (<[_ := ?a]> _))) =>
      destruct (new_extends h a) as [S1 N1];
      destruct (new_extends (<[fresh (dom h) := a]> h) b) as [S2 N2];
      destruct (new_extends
                  (<[fresh (dom (<[fresh (dom h) := a]> h)) := b]>
                     (<[fresh (dom h) := a]> h)) c) as [S3 N3]
  end.
  cbv zeta in *. eexists _, _. split; [reflexivity|]. split.
  - etrans; [exact S1|]. etrans; [exact S2|exact S3].
  - rewrite N3, N2, N1. lia.
Qed.

Lemma undistorted_fov_extends props l_fov r_fov h :
  extends_by 1 h (CreateUndistortedHeadMountMetrics_fov props l_fov r_fov h).
Proof.
  rewrite CreateUndistortedHeadMountMetrics_fov_run.
  destruct (new_extends h IdentityDistortion) as [S1 N1]. cbv zeta in *.
  eexists _, _. split; [reflexivity|]. split; [exact S1|]. rewrite N1. lia.
Qed.

(** X14.  A head-mount factory never changes or removes an object that
    is already in the heap; the standard factory adds exactly three
    objects, the undistorted one exactly one. *)
Theorem factories_extend_heap props l_fov r_fov h :
  extends_by 3 h (CreateHeadMountMetrics_fov props l_fov r_fov h) /\
  extends_by 3 h (CreateHeadMountMetrics props h) /\
  extends_by 1 h (CreateUndistortedHeadMountMetrics_fov props l_fov r_fov h) /\
  extends_by 1 h (CreateUndistortedHeadMountMetrics props h).
Proof.
  split; [apply standard_fov_extends|]. split.
  { destruct (CreateHeadMountMetrics_run props h) as (l & r & ->).
    apply standard_fov_extends. }
  split; [apply undistorted_fov_extends|].
  destruct (CreateUndistortedHeadMountMetrics_run props h) as (l & r & ->).
  apply undistorted_fov_extends.
Qed.

(** The fields of view the overloads without arguments compute. *)
Lemma default_overloads props h h0 :
  exists f0 f1 f2 f3,
    GetMaxFOVs props = [f0; f1; f2; f3] /\
    let l_fov := {| fov_1 := f1; fov_2 := f0; fov_3 := f2; fov_4 := f3 |} in
    let r_fov := {| fov_1 := f0; fov_2 := f1; fov_3 := f2; fov_4 := f3 |} in
    CreateHeadMountMetrics props h =
      CreateHeadMountMetrics_fov props l_fov r_fov h /\
    CreateUndistortedHeadMountMetrics props h0 =
      CreateUndistortedHeadMountMetrics_fov props l_fov r_fov h0.
Proof.
  destruct (eye_fovs_run props h) as (f0 & f1 & f2 & f3 & Hf & Hrun).
  destruct (eye_fovs_run props h0) as (g0 & g1 & g2 & g3 & Hg & Hrun0).
  rewrite Hf in Hg. injection Hg as <- <- <- <-.
  exists f0, f1, f2, f3. split; [exact Hf|]. cbv zeta. split.
  - unfold CreateHeadMountMetrics, bind. by rewrite Hrun.
  - unfold CreateUndistortedHeadMountMetrics, bind. by rewrite Hrun0.
Qed.

(** X15.  For the same store, the standard and the undistorted factory
    return metrics that agree in every field but the three channel
    references; this holds for the overloads that are given the fields
    of view and for the ones that compute them. *)
Theorem factories_same_optics props l_fov r_fov h h0 :
  (exists m h' m0 h0',
      CreateHeadMountMetrics_fov props l_fov r_fov h = Some (m, h') /\
      CreateUndistortedHeadMountMetrics_fov props l_fov r_fov h0
        = Some (m0, h0') /\
      same_optics m m0) /\
  (exists m h' m0 h0',
      CreateHeadMountMetrics props h = Some (m, h') /\
      CreateUndistortedHeadMountMetrics props h0 = Some (m0, h0') /\
      same_optics m m0).
Proof.
  assert (forall l r,
    exists m h' m0 h0',
      CreateHeadMountMetrics_fov props l r h = Some (m, h') /\
      CreateUndistortedHeadMountMetrics_fov props l r h0 = Some (m0, h0') /\
      same_optics m m0) as Hfov.
  { intros l r.
    destruct (CreateHeadMountMetrics_fov_run props l r h)
      as (o_r & o_g & o_b & _ & Hrun). cbv zeta in Hrun.
    rewrite Hrun, CreateUndistortedHeadMountMetrics_fov_run.
    eexists _, _, _, _. split; [reflexivity|]. split; [reflexivity|].
    by repeat split. }
  split; [apply Hfov|].
  destruct (default_overloads props h h0)
    as (f0 & f1 & f2 & f3 & _ & E1 & E2).
  rewrite E1, E2. apply Hfov.
Qed.

(** X16.  The overloads without arguments give the two eyes mirrored
    fields of view: with [GetMaxFOVs] returning f0, f1, f2, f3 the left
    eye gets (f1, f0, f2, f3) and the right eye (f0, f1, f2, f3). *)
Theorem mirrored_fields_of_view props h :
  exists f0 f1 f2 f3,
    GetMaxFOVs props = [f0; f1; f2; f3] /\
    let l_fov := {| fov_1 := f1; fov_2 := f0; fov_3 := f2; fov_4 := f3 |} in
    let r_fov := {| fov_1 := f0; fov_2 := f1; fov_3 := f2; fov_4 := f3 |} in
    (exists m h', CreateHeadMountMetrics props h = Some (m, h') /\
                  left_fov m = l_fov /\ right_fov m = r_fov) /\
    (exists m h', CreateUndistortedHeadMountMetrics props h = Some (m, h') /\
                  left_fov m = l_fov /\ right_fov m = r_fov).
Proof.
  destruct (default_overloads props h h)
    as (f0 & f1 & f2 & f3 & Hf & E1 & E2).
  exists f0, f1, f2, f3. split; [exact Hf|]. cbv zeta. split.
  - rewrite E1.
    destruct (CreateHeadMountMetrics_fov_run props
                {| fov_1 := f1; fov_2 := f0; fov_3 := f2; fov_4 := f3 |}
                {| fov_1 := f0; fov_2 := f1; fov_3 := f2; fov_4 := f3 |} h)
      as (o_r & o_g & o_b & _ & Hrun). cbv zeta in Hrun. rewrite Hrun.
    by eexists _, _.
  - rewrite E2, CreateUndistortedHeadMountMetrics_fov_run. by eexists _, _.
Qed.

(** X17.  Two successive runs of the standard factory share no channel
    object, and the second run leaves the objects of the first as they
    were. *)
Theorem successive_runs_share_nothing p q l_fov r_fov l_fov' r_fov' h :
  exists m1 h1 m2 h2,
    CreateHeadMountMetrics_fov p l_fov r_fov h = Some (m1, h1) /\
    CreateHeadMountMetrics_fov q l_fov' r_fov' h1 = Some (m2, h2) /\
    (forall a b, a ∈ channel_refs m1 -> b ∈ channel_refs m2 -> a <> b) /\
    (forall a, a ∈ channel_refs m1 ->
               is_polynomial (h1 !! a) /\ h2 !! a = h1 !! a).
Proof.
  destruct (standard_fov_three p l_fov r_fov h)
    as (m1 & h1 & R1 & _ & _ & _ & _ & Pr & Pg & Pb).
  destruct (standard_fov_three q l_fov' r_fov' h1)
    as (m2 & h2 & R2 & _ & _ & _ & (Nr & Ng & Nb) & _).
  destruct (standard_fov_extends q l_fov' r_fov' h1)
    as (m & h' & E3 & Hsub & _).
  rewrite R2 in E3. injection E3 as <- <-.
  exists m1, h1, m2, h2. split; [exact R1|]. split; [exact R2|].
  assert (forall a, a ∈ channel_refs m1 -> is_polynomial (h1 !! a)) as Hold.
  { intros a Ha. unfold channel_refs in Ha.
    repeat (apply elem_of_cons in Ha as [-> | Ha]; [done|]).
    by apply elem_of_nil in Ha. }
  assert (forall b, b ∈ channel_refs m2 -> h1 !! b = None) as Hnew.
  { intros b Hb. unfold channel_refs in Hb.
    repeat (apply elem_of_cons in Hb as [-> | Hb]; [done|]).
    by apply elem_of_nil in Hb. }
  split.
  - intros a b Ha Hb ->. destruct (Hold b Ha) as (o & c & Ho).
    rewrite (Hnew b Hb) in Ho. discriminate Ho.
  - intros a Ha. split; [by apply Hold|].
    destruct (Hold a Ha) as (o & c & Ho). rewrite Ho.
    by apply (lookup_weaken h1 h2).
Qed.

End MoreFactories.

(* ===================================================================== *)
(** ** Arithmetic at the edges *)
(* ===================================================================== *)

Section Edges.

Implicit Types (props : properties) (h : heap) (x : float).

Lemma fsub_zero x : fsub x (S754_zero false) = x.
Proof. by destruct x as [[|]|[|]| |[|] m e]. Qed.

(** X18.  A resolution with a zero component is not rejected: the
    meters per pixel of that axis are +infinity. *)
Theorem CreateDisplayMetrics_zero props (w h : Z) :
  (exists m, CreateDisplayMetrics props (0%Z, h) = Some m /\
             fst (meters_per_pixel m) = S754_infinity false) /\
  (exists m, CreateDisplayMetrics props (w, 0%Z) = Some m /\
             snd (meters_per_pixel m) = S754_infinity false).
Proof.
  unfold CreateDisplayMetrics. rewrite GetDisplaySize_default.
  split; eexists; (split; [reflexivity|]); vm_compute; reflexivity.
Qed.

(** X19.  When the display gap is unset or does not parse, every
    head-mount factory stores half the inter-lens distance as the
    tray-to-lens offset, whatever that distance is. *)
Theorem tray_offset_without_gap props l_fov r_fov h :
  parse_token (text_of props kDisplayGap) = None ->
  let expected := fdiv (GetInterLensDistance props) (flit 2 0) in
  stores_offset expected (CreateHeadMountMetrics_fov props l_fov r_fov h) /\
  stores_offset expected (CreateHeadMountMetrics props h) /\
  stores_offset expected
    (CreateUndistortedHeadMountMetrics_fov props l_fov r_fov h) /\
  stores_offset expected (CreateUndistortedHeadMountMetrics props h).
Proof.
  intros Hgap expected.
  assert (expected =
          fdiv (fsub (GetInterLensDistance props) (GetDisplayGap props))
               (flit 2 0)) as ->.
  { unfold expected, GetDisplayGap.
    rewrite (GetProperty_float_parsed props kDisplayGap), Hgap.
    cbn [default]. change (flit 0 0) with (S754_zero false).
    by rewrite fsub_zero. }
  split; [apply standard_fov_offset|]. split.
  { destruct (CreateHeadMountMetrics_run props h) as (l & r & ->).
    apply standard_fov_offset. }
  split; [apply undistorted_fov_offset|].
  destruct (CreateUndistortedHeadMountMetrics_run props h) as (l & r & ->).
  apply undistorted_fov_offset.
Qed.

Lemma tray_offset_without_gap_witness :
  let props : properties := <[kLensDistance := "0.07"]> ∅ in
  stores_offset (fdiv (GetInterLensDistance props) (flit 2 0))
    (CreateHeadMountMetrics props ∅).
Proof.
  intros props.
  pose (fov := {| fov_1 := flit 0 0; fov_2 := flit 0 0;
                  fov_3 := flit 0 0; fov_4 := flit 0 0 |}).
  assert (parse_token (text_of props kDisplayGap) = None) as H
    by (vm_compute; reflexivity).
  destruct (tray_offset_without_gap props fov fov ∅ H) as (_ & H1 & _).
  exact H1.
Defined.

Lemma convert_opp prec emax x :
  IEEE.convert prec emax (SFopp x) = SFopp (IEEE.convert prec emax x).
Proof.
  destruct x as [s|s| |s m e]; try reflexivity.
  apply StrtofBounds.binary_round_opp.
Qed.

Lemma SFmul_opp prec emax x my ey :
  SFmul prec emax (SFopp x) (S754_finite false my ey) =
  SFopp (SFmul prec emax x (S754_finite false my ey)).
Proof.
  destruct x as [s|s| |s m e]; cbn [SFopp SFmul]; rewrite ?xorb_false_r;
    try reflexivity.
  apply StrtofBounds.binary_round_aux_opp.
Qed.

Lemma SFdiv_opp prec emax x my ey :
  SFdiv prec emax (SFopp x) (S754_finite false my ey) =
  SFopp (SFdiv prec emax x (S754_finite false my ey)).
Proof.
  destruct x as [s|s| |s m e]; cbn [SFopp SFdiv]; rewrite ?xorb_false_r;
    try reflexivity.
  destruct (SFdiv_core_binary _ _ _ _ _ _) as [[mz ez] lz].
  apply StrtofBounds.binary_round_aux_opp.
Qed.

(** X20.  The conversion to radians that [GetMaxFOVs] applies is odd:
    the opposite angle gives the opposite result, for every [float],
    zeros, infinities and NaN included. *)
Theorem to_radians_opp x : to_radians (SFopp x) = SFopp (to_radians x).
Proof.
  unfold to_radians, double_to_float, float_to_double, dmul, ddiv.
  assert (exists mp ep, M_PI = S754_finite false mp ep) as (mp & ep & ->)
    by (eexists _, _; vm_compute; reflexivity).
  assert (exists m e,
            IEEE.convert IEEE.prec64 IEEE.emax64 (flit 180 0)
            = S754_finite false m e) as (m & e & ->)
    by (eexists _, _; vm_compute; reflexivity).
  by rewrite convert_opp, SFmul_opp, SFdiv_opp, convert_opp.
Qed.

End Edges.
